(** * DESI tutorial notebooks: a shallow embedding of the notebook cells

    Two notebooks are modelled: [redshift-database.ipynb] (environment setup,
    loading FITS files into the redshift database, queries, an update, the
    conversion of a query result into a table and the survey-progress
    computation) and [Dec2020/galaxies/fitting_sps.ipynb] (the log-posterior
    of the spectral fit, the optimisation and the MCMC call).

    Python floats are IEEE binary64 numbers: they are Rocq's primitive floats.
    [os.environ] and the database are finite maps keyed by strings. A cell that
    can raise returns in the [result] monad. *)

From Stdlib Require Import ZArith List Ascii String Bool Lia.
From Stdlib Require Import PrimFloat Uint63.
From Corelib Require SpecFloat FloatOps FloatAxioms.
From stdpp Require Import base option list strings gmap.

Set Warnings "-inexact-float".
Local Open Scope string_scope.

(** ** Exceptions raised by the cells *)

Inductive exn : Type :=
| KeyError (key : string)
| NameError (name : string)
| IndexError
| ZeroDivisionError
| TypeError
| ValueError
| AttributeError (name : string)
| FileNotFoundError (path : string).

Inductive result (A : Type) : Type :=
| Ok (a : A)
| Raise (e : exn).
Arguments Ok {A} a.
Arguments Raise {A} e.

(** Sequencing of statements: the first exception raised ends the cell.
    Written [x ← m; k] below. *)
#[global] Instance result_bind : MBind result := fun A B k m =>
  match m with
  | Ok a => k a
  | Raise e => Raise e
  end.

Definition is_ok {A : Type} (m : result A) : bool :=
  match m with Ok _ => true | Raise _ => false end.

(** A cell that, if it fails, fails otherwise than by an unbound name. *)
Definition no_NameError {A : Type} (m : result A) : Prop :=
  forall name, m <> Raise (NameError name).

(** [for x in xs: body], every iteration of which may raise. *)
Fixpoint rmap {A B : Type} (f : A -> result B) (xs : list A) : result (list B) :=
  match xs with
  | [] => Ok []
  | x :: xs' => y ← f x; ys ← rmap f xs'; Ok (y :: ys)
  end.

(** [a, b, ... = zip] of the starred query result: unpacking nothing
    raises. *)
Definition zip_star {A : Type} (q : list A) : result (list A) :=
  match q with
  | [] => Raise ValueError
  | _ => Ok q
  end.

(** [a[n]] on a sequence: a negative index counts from the end, an index
    outside the sequence raises. *)
Definition getitem {A : Type} (a : list A) (n : Z) : result A :=
  let m := if (n <? 0)%Z then (n + Z.of_nat (length a))%Z else n in
  if (m <? 0)%Z then Raise IndexError
  else match a !! Z.to_nat m with
       | Some x => Ok x
       | None => Raise IndexError
       end.

(** [d[key]] on a dictionary keyed by strings. *)
Definition getkey {A : Type} (d : gmap string A) (key : string) : result A :=
  match d !! key with
  | Some v => Ok v
  | None => Raise (KeyError key)
  end.

(** ** [redshift-database.ipynb], cell "Initial Setup" *)

Module Setup.

(** [str.startswith(sep)] and [str.endswith(sep)] for the separator ['/']. *)
Definition startswith_sep (s : string) : bool :=
  match s with
  | String c _ => Ascii.eqb c "/"
  | EmptyString => false
  end.

Fixpoint endswith_sep (s : string) : bool :=
  match s with
  | EmptyString => false
  | String c EmptyString => Ascii.eqb c "/"
  | String _ rest => endswith_sep rest
  end.

Definition is_empty (s : string) : bool :=
  match s with EmptyString => true | _ => false end.

(** One iteration of the loop of [posixpath.join]. *)
Definition join_step (path b : string) : string :=
  if startswith_sep b then b
  else if is_empty path || endswith_sep path then path ++ b
  else path ++ "/" ++ b.

(** [os.path.join(a, *p)]. *)
Definition os_path_join (a : string) (p : list string) : string :=
  fold_left join_step p a.

Definition reference_run : string := "19.12".

(** The module-level names the setup cell binds and later cells read. *)
Record paths : Type := {
  basedir : string;
  surveydir : string;
  targetdir : string;
  fibassigndir : string;
  reduxdir : string;
  simdatadir : string
}.

(** [os.environ[key]]: a missing key raises [KeyError]. *)
Definition getenv (environ : gmap string string) (key : string) : result string :=
  match environ !! key with
  | Some v => Ok v
  | None => Raise (KeyError key)
  end.

(** The "Paths to files, etc." part of the first cell, statement by
    statement; the environment is threaded through. *)
Definition initial_setup (environ : gmap string string)
  : result (gmap string string * paths) :=
  root ← getenv environ "DESI_ROOT";
  let basedir := os_path_join root ["datachallenge"; "reference_runs"; reference_run] in
  let surveydir := os_path_join basedir ["survey"] in
  let environ := <["DESISURVEY_OUTPUT" := surveydir]> environ in
  let targetdir := os_path_join basedir ["targets"] in
  let fibassigndir := os_path_join basedir ["fiberassign"] in
  let environ := <["DESI_SPECTRO_REDUX" := os_path_join basedir ["spectro"; "redux"]]> environ in
  let environ := <["DESI_SPECTRO_SIM" := os_path_join basedir ["spectro"; "sim"]]> environ in
  let environ := <["PIXPROD" := "mini"]> environ in
  let environ := <["SPECPROD" := "mini"]> environ in
  redux ← getenv environ "DESI_SPECTRO_REDUX";
  specprod ← getenv environ "SPECPROD";
  let reduxdir := os_path_join redux [specprod] in
  sim ← getenv environ "DESI_SPECTRO_SIM";
  pixprod ← getenv environ "PIXPROD";
  let simdatadir := os_path_join sim [pixprod] in
  let environ := <["DESI_SPECTRO_DATA" := simdatadir]> environ in
  Ok (environ,
      {| basedir := basedir; surveydir := surveydir; targetdir := targetdir;
         fibassigndir := fibassigndir; reduxdir := reduxdir;
         simdatadir := simdatadir |}).

End Setup.


(** ** Strings *)

Definition is_ascii_lower (c : ascii) : bool :=
  (97 <=? N_of_ascii c)%N && (N_of_ascii c <=? 122)%N.

(** [str.upper()] on ASCII text. *)
Definition upper_ascii (c : ascii) : ascii :=
  if is_ascii_lower c then ascii_of_N (N_of_ascii c - 32) else c.

Fixpoint upper (s : string) : string :=
  match s with
  | EmptyString => EmptyString
  | String c rest => String (upper_ascii c) (upper rest)
  end.

Definition is_ascii_upper (c : ascii) : bool :=
  (65 <=? N_of_ascii c)%N && (N_of_ascii c <=? 90)%N.

(** A name without upper-case letters, as the column names of the mapped
    classes are. *)
Fixpoint no_upper (s : string) : bool :=
  match s with
  | EmptyString => true
  | String c rest => negb (is_ascii_upper c) && no_upper rest
  end.

(** The ASCII characters [str.isspace()] accepts. *)
Definition is_space (c : ascii) : bool :=
  let n := N_of_ascii c in
  (n =? 32)%N || ((9 <=? n)%N && (n <=? 13)%N) || ((28 <=? n)%N && (n <=? 31)%N).

(** [str.rstrip()]: trailing whitespace removed. *)
Fixpoint rstrip (s : string) : string :=
  match s with
  | EmptyString => EmptyString
  | String c rest =>
      match rstrip rest with
      | EmptyString => if is_space c then EmptyString else String c EmptyString
      | r => String c r
      end
  end.

(** ** Values of FITS and database columns *)

Inductive cell : Type :=
| CInt (n : Z)
| CFloat (x : float)
| CStr (s : string)
| CArr (xs : list float)
| CNone.

(** The float a Python integer compares as (exact below [2^53]). *)
Definition float_of_Z (n : Z) : float :=
  if (n <? 0)%Z then PrimFloat.opp (PrimFloat.of_uint63 (Uint63.of_Z (- n)))
  else PrimFloat.of_uint63 (Uint63.of_Z n).



(** ** [redshift-database.ipynb], section "Loading the Database" *)

Module Loading.

(** A row of a FITS binary table or of a database table: column name to
    value. Column names are case-insensitive in FITS and in SQL; a column
    keeps one spelling, the file's, from the file to the table. *)
Abbreviation row := (gmap string cell).
(** A FITS file: HDU name to the rows of that HDU. *)
Abbreviation fits_file := (gmap string (list row)).
Abbreviation filesystem := (gmap string fits_file).
(** The database: table name to rows, in insertion order. *)
Abbreviation database := (gmap string (list row)).

























End Loading.

(** ** [redshift-database.ipynb], the query cells *)

Module Queries.

(** The mapped classes. The primary key [targetid] is the key of the
    table; the record holds the other columns. *)
Module Truth.
Record row : Type := {
  truez : float;
  truespectype : string;
  templatetype : string;
  other : string -> cell
}.
End Truth.

Module Target.
Record row : Type := {
  desi_target : Z;
  bgs_target : Z;
  mws_target : Z;
  flux_g : float
}.
End Target.

Module ZCat.
Record row : Type := {
  z : float;
  zerr : float;
  zwarn : Z;
  spectype : string
}.
End ZCat.

(** A table with primary key [targetid]. *)
Abbreviation table R := (gmap Z R).

(** *** "A Join" *)

(** [query(db.Truth, db.ZCat).filter(db.Truth.targetid == db.ZCat.targetid).all()] *)
Definition join_truth_zcat (truth : table Truth.row) (zcat : table ZCat.row)
  : list (Z * Truth.row * ZCat.row) :=
  omap (fun kz : Z * ZCat.row =>
          match truth !! kz.1 with
          | Some t => Some (kz.1, t, kz.2)
          | None => None
          end) (map_to_list zcat).

(** Python's [x / y] on floats. *)
Definition py_truediv (x y : float) : result float :=
  if PrimFloat.eqb y 0 then Raise ZeroDivisionError else Ok (x / y)%float.

(** The element of the list comprehension of the plotting cell. *)
Definition python_dz (r : Z * Truth.row * ZCat.row) : result float :=
  py_truediv (ZCat.z r.2 - Truth.truez r.1.2) (1.0 + Truth.truez r.1.2).

(** [dv = lightspeed.to('km / s') * np.array([... for row in q])] *)
Definition python_dv (c_kms : float) (truth : table Truth.row)
    (zcat : table ZCat.row) : result (list float) :=
  dz ← rmap python_dz (join_truth_zcat truth zcat);
  Ok (map (fun d => c_kms * d)%float dz).

(** *** "Efficiency Studies": the expression the database evaluates *)

Inductive sql_expr : Type :=
| Truth_truez
| ZCat_z
| Lit (x : float)
| Sub (a b : sql_expr)
| Add (a b : sql_expr)
| Div (a b : sql_expr).

(** SQL arithmetic on one joined row; [None] is [NULL], which a division
    by zero yields and every operator propagates. *)
Fixpoint eval (t : Truth.row) (zc : ZCat.row) (e : sql_expr) : option float :=
  match e with
  | Truth_truez => Some (Truth.truez t)
  | ZCat_z => Some (ZCat.z zc)
  | Lit x => Some x
  | Sub a b =>
      match eval t zc a, eval t zc b with
      | Some x, Some y => Some (x - y)%float
      | _, _ => None
      end
  | Add a b =>
      match eval t zc a, eval t zc b with
      | Some x, Some y => Some (x + y)%float
      | _, _ => None
      end
  | Div a b =>
      match eval t zc a, eval t zc b with
      | Some x, Some y => if PrimFloat.eqb y 0 then None else Some (x / y)%float
      | _, _ => None
      end
  end.

(** [((db.ZCat.z - db.Truth.truez)/(1.0 + db.Truth.truez)).label('dz')] *)
Definition dz_label : sql_expr :=
  Div (Sub ZCat_z Truth_truez) (Add (Lit 1.0) Truth_truez).

(** A row of the five-column query of the slices cell. *)
Record dz_row : Type := {
  r_truez : float;
  r_z : float;
  r_zwarn : Z;
  r_flux_g : float;
  r_dz : option float
}.

(** The query joining [truth], [target] and [zcat] on [targetid]. *)
Definition dz_query (truth : table Truth.row) (target : table Target.row)
    (zcat : table ZCat.row) : list dz_row :=
  omap (fun kz : Z * ZCat.row =>
          match truth !! kz.1, target !! kz.1 with
          | Some t, Some tg =>
              Some {| r_truez := Truth.truez t; r_z := ZCat.z kz.2;
                      r_zwarn := ZCat.zwarn kz.2; r_flux_g := Target.flux_g tg;
                      r_dz := eval t kz.2 dz_label |}
          | _, _ => None
          end) (map_to_list zcat).

(** One element of [lightspeed.to('km / s').value * np.array(dz)]; a
    [None] among the values makes the product raise. *)
Definition sql_dv_elem (c_kms : float) (dz : option float) : result float :=
  match dz with
  | Some d => Ok (c_kms * d)%float
  | None => Raise TypeError
  end.

Definition sql_dv (c_kms : float) (truth : table Truth.row)
    (target : table Target.row) (zcat : table ZCat.row) : result (list float) :=
  q ← zip_star (dz_query truth target zcat);
  rmap (fun r => sql_dv_elem c_kms (r_dz r)) q.

(** The formula of the claim, on two numbers. *)
Definition dz_formula (truez z : float) : float := ((z - truez) / (1.0 + truez))%float.

(** *** "Updates" *)

(** [LIKE 'QSO%']. SQLite compares ASCII letters without case unless
    [case_sensitive_like] is set; PostgreSQL compares with case. *)
Definition like_QSO (case_sensitive_like : bool) (s : string) : bool :=
  if case_sensitive_like then String.prefix "QSO" s
  else String.prefix "QSO" (upper s).

(** [.filter(db.Truth.truez >= 2.1).filter(db.Truth.templatetype.like('QSO%'))] *)
Definition is_lya_qso (cs : bool) (r : Truth.row) : bool :=
  PrimFloat.leb 2.1 (Truth.truez r) && like_QSO cs (Truth.templatetype r).

Definition qso_query (cs : bool) (truth : table Truth.row) : list (Z * Truth.row) :=
  filter (fun kr => is_lya_qso cs kr.2 = true) (map_to_list truth).

(** [row.templatetype = 'QSO_L'] on a mapped object. *)
Definition set_templatetype (v : string) (r : Truth.row) : Truth.row :=
  {| Truth.truez := Truth.truez r;
     Truth.truespectype := Truth.truespectype r;
     Truth.templatetype := v;
     Truth.other := Truth.other r |}.

(** The session: the table as stored and the objects modified since the
    last commit, by primary key. *)
Record session : Type := {
  stored : table Truth.row;
  dirty : list (Z * Truth.row)
}.

(** [for row in q: row.templatetype = 'QSO_L'] *)
Definition update_loop (q : list (Z * Truth.row)) (s : session) : session :=
  fold_left (fun s kr =>
               {| stored := stored s;
                  dirty := (kr.1, set_templatetype "QSO_L" kr.2) :: dirty s |})
            q s.

(** [db.dbSession.commit()]: every modified object is written to its row. *)
Definition commit (s : session) : session :=
  {| stored := fold_right (fun kr tbl => <[kr.1 := kr.2]> tbl) (stored s) (dirty s);
     dirty := [] |}.

(** The three update cells: query, loop, commit. *)
Definition update_step (cs : bool) (truth : table Truth.row) : table Truth.row :=
  let s := {| stored := truth; dirty := [] |} in
  let q := qso_query cs (stored s) in
  stored (commit (update_loop q s)).

(** [all([row.templatetype == 'QSO_L' for row in q])] *)
Definition all_QSO_L (q : list (Z * Truth.row)) : bool :=
  forallb (fun kr => String.eqb (Truth.templatetype kr.2) "QSO_L") q.

End Queries.

(** ** [redshift-database.ipynb], [truth_query_to_table] *)

Module SpecQA.
Import Queries.

(** A row of the query of [db.Truth], [db.Target], [db.ZCat] and the
    labelled [dz], joined on [targetid]. *)
Record qrow : Type := {
  row_targetid : Z;
  row_Truth : Truth.row;
  row_Target : Target.row;
  row_ZCat : ZCat.row;
  row_dz : option float
}.

(** [getattr(row.Truth, name)] for a column of the truth table. *)
Definition getattr_Truth (r : qrow) (name : string) : cell :=
  if String.eqb name "targetid" then CInt (row_targetid r)
  else if String.eqb name "truez" then CFloat (Truth.truez (row_Truth r))
  else if String.eqb name "truespectype" then CStr (Truth.truespectype (row_Truth r))
  else if String.eqb name "templatetype" then CStr (Truth.templatetype (row_Truth r))
  else Truth.other (row_Truth r) name.

(** [getattr(row.Target, name)] *)
Definition getattr_Target (r : qrow) (name : string) : result cell :=
  if String.eqb name "targetid" then Ok (CInt (row_targetid r))
  else if String.eqb name "desi_target" then Ok (CInt (Target.desi_target (row_Target r)))
  else if String.eqb name "bgs_target" then Ok (CInt (Target.bgs_target (row_Target r)))
  else if String.eqb name "mws_target" then Ok (CInt (Target.mws_target (row_Target r)))
  else if String.eqb name "flux_g" then Ok (CFloat (Target.flux_g (row_Target r)))
  else Raise (AttributeError name).

(** [getattr(row.ZCat, name)] *)
Definition getattr_ZCat (r : qrow) (name : string) : result cell :=
  if String.eqb name "targetid" then Ok (CInt (row_targetid r))
  else if String.eqb name "z" then Ok (CFloat (ZCat.z (row_ZCat r)))
  else if String.eqb name "zerr" then Ok (CFloat (ZCat.zerr (row_ZCat r)))
  else if String.eqb name "zwarn" then Ok (CInt (ZCat.zwarn (row_ZCat r)))
  else if String.eqb name "spectype" then Ok (CStr (ZCat.spectype (row_ZCat r)))
  else Raise (AttributeError name).

(** [row.dz]: the labelled expression, [None] when the database gave
    [NULL]. *)
Definition getattr_dz (r : qrow) : cell :=
  match row_dz r with
  | Some d => CFloat d
  | None => CNone
  end.

(** [np.char.rstrip(value)]: a string operation. *)
Definition np_char_rstrip (c : cell) : result cell :=
  match c with
  | CStr s => Ok (CStr (rstrip s))
  | _ => Raise TypeError
  end.

Record MaskedColumn : Type := {
  name : string;
  data : list cell;
  mask : list bool
}.

(** [MaskedColumn(data, name=name, mask=mask)]: the mask has the shape of
    the data. *)
Definition mk_MaskedColumn (d : list cell) (n : string) (m : list bool)
  : result MaskedColumn :=
  if (length m =? length d)%nat then Ok {| name := n; data := d; mask := m |}
  else Raise ValueError.

(** [Table.add_columns] on the columns [t] already has: the names must be
    distinct and the columns of one length. *)
Definition add_columns (t cols : list MaskedColumn) : result (list MaskedColumn) :=
  let all := (t ++ cols)%list in
  if bool_decide (NoDup (map name all))
     && forallb (fun c => (length (data c) =? length (data (List.hd c all)))%nat) all
  then Ok all else Raise ValueError.

(** The bodies of the three loops of the function: the column made from
    the truth column, the target column and the catalogue column [c]. *)
Definition truth_column (q : list qrow) (mask : list bool) (c : string)
  : result MaskedColumn :=
  if String.eqb c "truespectype" || String.eqb c "templatetype" then
    d ← rmap (fun r => np_char_rstrip (getattr_Truth r c)) q;
    mk_MaskedColumn d (upper c) mask
  else
    mk_MaskedColumn (map (fun r => getattr_Truth r c) q) (upper c) mask.

Definition target_column (q : list qrow) (mask : list bool) (c : string)
  : result MaskedColumn :=
  d ← rmap (fun r => getattr_Target r c) q;
  mk_MaskedColumn d (upper c) mask.

Definition zcat_column (q : list qrow) (mask : list bool) (c : string)
  : result MaskedColumn :=
  if String.eqb c "spectype" then
    d ← rmap (fun r => v ← getattr_ZCat r c; np_char_rstrip v) q;
    mk_MaskedColumn d (upper c) mask
  else
    d ← rmap (fun r => getattr_ZCat r c) q;
    mk_MaskedColumn d (upper c) mask.

(** The function of the notebook. [columns] are the names of
    [db.Truth.__table__.columns], in the order of the table. *)
Definition truth_query_to_table (columns : list string) (q : list qrow)
  : result (list MaskedColumn) :=
  let t := [] in
  let mask := replicate (length q) false in
  cols_truth ← rmap (truth_column q mask) columns;
  cols_target ← rmap (target_column q mask) ["desi_target"; "bgs_target"; "mws_target"];
  cols_zcat ← rmap (zcat_column q mask) ["z"; "zerr"; "zwarn"; "spectype"];
  col_dz ← mk_MaskedColumn (map getattr_dz q) "DZ" mask;
  add_columns t (cols_truth ++ cols_target ++ cols_zcat ++ [col_dz])%list.

(** The names the function appends after the truth columns. *)
Definition appended_names : list string :=
  ["DESI_TARGET"; "BGS_TARGET"; "MWS_TARGET"; "Z"; "ZERR"; "ZWARN"; "SPECTYPE"; "DZ"].

(** No entry of a column of [n] rows is masked. *)
Definition unmasked (n : nat) : list bool := replicate n false.

(** What the claim says the column made from the truth column [c] is: named
    in upper case, holding the stripped strings when that name is
    [TRUESPECTYPE] or [TEMPLATETYPE] and the attribute as it is otherwise. *)
Definition expected_truth_value (c : string) (r : qrow) : cell :=
  if String.eqb (upper c) "TRUESPECTYPE" then CStr (rstrip (Truth.truespectype (row_Truth r)))
  else if String.eqb (upper c) "TEMPLATETYPE" then CStr (rstrip (Truth.templatetype (row_Truth r)))
  else getattr_Truth r c.

Definition expected_truth_column (q : list qrow) (c : string) : MaskedColumn :=
  {| name := upper c; data := map (expected_truth_value c) q;
     mask := unmasked (length q) |}.

(** The eight columns the claim lists after the truth columns. *)
Definition expected_appended (q : list qrow) : list MaskedColumn :=
  let col n (f : qrow -> cell) :=
    {| name := n; data := map f q; mask := unmasked (length q) |} in
  [ col "DESI_TARGET" (fun r => CInt (Target.desi_target (row_Target r)));
    col "BGS_TARGET" (fun r => CInt (Target.bgs_target (row_Target r)));
    col "MWS_TARGET" (fun r => CInt (Target.mws_target (row_Target r)));
    col "Z" (fun r => CFloat (ZCat.z (row_ZCat r)));
    col "ZERR" (fun r => CFloat (ZCat.zerr (row_ZCat r)));
    col "ZWARN" (fun r => CInt (ZCat.zwarn (row_ZCat r)));
    col "SPECTYPE" (fun r => CStr (rstrip (ZCat.spectype (row_ZCat r))));
    col "DZ" getattr_dz ].

End SpecQA.

(** ** [redshift-database.ipynb], section "Survey Progress" *)

Module Progress.

(** *** [np.unique] with indices, inverse and counts *)

(** A stable sort of the values paired with their positions: an element
    is put in front of the elements that are not smaller. *)
Fixpoint insert_stable (x : Z * nat) (l : list (Z * nat)) : list (Z * nat) :=
  match l with
  | [] => [x]
  | y :: l' => if (x.1 <=? y.1)%Z then x :: l else y :: insert_stable x l'
  end.

(** [ar.argsort(kind='mergesort')] *)
Definition argsort (ar : list Z) : list nat :=
  map snd (fold_right insert_stable [] (zip ar (seq 0 (length ar)))).

(** [a[mask]] *)
Fixpoint select {A : Type} (mask : list bool) (a : list A) : list A :=
  match mask, a with
  | b :: mask', x :: a' => if b then x :: select mask' a' else select mask' a'
  | _, _ => []
  end.

(** [np.nonzero(mask)], counting from [start]. *)
Fixpoint nonzero_from (start : nat) (mask : list bool) : list nat :=
  match mask with
  | [] => []
  | b :: mask' =>
      if b then start :: nonzero_from (S start) mask'
      else nonzero_from (S start) mask'
  end.

(** [np.diff] *)
Fixpoint diff (idx : list nat) : list nat :=
  match idx with
  | a :: (b :: _) as rest => (b - a) :: diff rest
  | _ => []
  end.

(** [np.cumsum(mask) - 1], given the sum so far. *)
Fixpoint cumsum_minus_1 (acc : Z) (mask : list bool) : list Z :=
  match mask with
  | [] => []
  | b :: mask' =>
      let acc' := (acc + (if b then 1 else 0))%Z in
      (acc' - 1)%Z :: cumsum_minus_1 acc' mask'
  end.

(** The mask numpy computes on the sorted copy: an element starts a run
    when it differs from the one before. *)
Definition mask_of (aux : list Z) : list bool :=
  match aux with
  | [] => []
  | _ :: tl => true :: zip_with (fun a b => negb (a =? b)%Z) tl aux
  end.

Record unique_result : Type := {
  u_values : list Z;
  u_index : list nat;
  u_inverse : list Z;
  u_counts : list nat
}.

(** [np.unique(ar, return_index=True, return_inverse=True,
    return_counts=True)], as numpy computes it from the sorted copy. *)
Definition np_unique (ar : list Z) : unique_result :=
  let perm := argsort ar in
  let aux := map (fun i => nth i ar 0%Z) perm in
  let mask := mask_of aux in
  let imask := cumsum_minus_1 0 mask in
  {| u_values := select mask aux;
     u_index := select mask perm;
     u_inverse :=
       fold_left (fun inv pv => <[pv.1 := pv.2]> inv) (zip perm imask)
                 (replicate (length mask) 0%Z);
     u_counts := diff (nonzero_from 0 mask ++ [length mask]) |}.

(** *** The cell *)

(** [a[idx]] for an index array. *)
Definition take_indices {A : Type} (a : list A) (idx : list Z) : result (list A) :=
  rmap (getitem a) idx.

(** The second half of the cell: from the rows of the ordered query to
    [(unique_targetid, unique_expid, unique_mjd)]. *)
Definition last_observation (q2 : list (Z * Z * float))
  : result (list Z * list Z * list float) :=
  rows ← zip_star q2;
  let targetid := map (fun r => r.1.1) rows in
  let expid := map (fun r => r.1.2) rows in
  let mjd := map (fun r => r.2) rows in
  let u := np_unique targetid in
  let last := zip_with (fun i c => (Z.of_nat i + (Z.of_nat c - 1))%Z)
                       (u_index u) (u_counts u) in
  unique_expid ← take_indices expid last;
  unique_mjd ← take_indices mjd last;
  Ok (u_values u, unique_expid, unique_mjd).

(** [ORDER BY targetid, expid]: each row is at most the next one. *)
Definition row_le (a b : Z * Z * float) : bool :=
  (a.1.1 <? b.1.1)%Z || ((a.1.1 =? b.1.1)%Z && (a.1.2 <=? b.1.2)%Z).

Fixpoint ordered (q2 : list (Z * Z * float)) : bool :=
  match q2 with
  | a :: (b :: _) as rest => row_le a b && ordered rest
  | _ => true
  end.

(** An array in the order [ORDER BY] leaves it. *)
Definition nondecreasing (l : list Z) : Prop :=
  forall a b x y, a <= b -> l !! a = Some x -> l !! b = Some y -> (x <= y)%Z.

End Progress.

(** ** [Dec2020/galaxies/fitting_sps.ipynb] *)

Module SpsFit.

(** The object [read_spectra] returns: per band, the wavelength grid and
    one row of flux and of inverse variance per galaxy. *)
Record Spectra : Type := {
  wave : gmap string (list float);
  flux : gmap string (list (list float));
  ivar : gmap string (list (list float))
}.

(** The keyword arguments of [desi_mcmc.run]. *)
Record mcmc_args : Type := {
  wave_obs : list float;
  flux_obs : list float;
  flux_ivar_obs : list float;
  arg_zred : float;
  sampler : string;
  nwalkers : Z;
  burnin : Z;
  opt_maxiter : Z;
  niter : Z;
  debug : bool
}.

(** The arguments of [op.minimize]. *)
Record minimize_args : Type := {
  objective : list float -> result float;
  start : list float;
  method : string;
  maxiter : Z
}.

(** The imported packages: [provabgs] (priors, emulator, MCMC), [numpy]'s
    summation, [desispec.io], [astropy.table] and [scipy.optimize]. The
    pseudo-random draws of [priors.sample()] are a sequence, read by the
    number of draws made so far. *)
Class Libraries : Type := {
  lnPrior : list float -> float;
  transform : list float -> list float;
  sample : nat -> list float;
  sed : list float -> float -> option (list float)
        -> list (list float) * list (list float);
  SFH : list float -> float -> list float * list float;
  ZH : list float -> float -> list float * list float;
  np_sum : list (list float) -> float;
  read_spectra : string -> Spectra;
  Table_read_Z : string -> Z -> list float;
  op_minimize : minimize_args -> list float;
  desiMCMC_run : mcmc_args -> list (list (list float))
}.

(** *** numpy arithmetic on arrays *)

(** A binary operation on two 1-d arrays, with numpy's broadcasting of a
    length-one array. *)
Definition broadcast (f : float -> float -> float) (xs ys : list float)
  : result (list float) :=
  if (length xs =? length ys)%nat then Ok (zip_with f xs ys)
  else match xs, ys with
       | _, [y] => Ok (map (fun x => f x y) xs)
       | [x], _ => Ok (map (f x) ys)
       | _, _ => Raise ValueError
       end.

(** A 2-d array with a 1-d array: the 1-d array meets every row. *)
Definition broadcast_rows (f : float -> float -> float)
    (a : list (list float)) (b : list float) : result (list (list float)) :=
  rmap (fun r => broadcast f r b) a.

(** [a**2] *)
Definition square (a : list (list float)) : list (list float) :=
  map (map (fun x => x * x)%float) a.

(** [np.mean(rows, axis=0)]: the rows are added in order and the sum is
    divided by their number. *)
Definition np_mean_axis0 (rows : list (list float)) : result (list float) :=
  match rows with
  | [] => Raise ValueError
  | r0 :: rest =>
      if forallb (fun r => (length r =? length r0)%nat) rest
      then Ok (map (fun t => t / float_of_Z (Z.of_nat (length rows)))%float
                   (fold_left (zip_with PrimFloat.add) rest r0))
      else Raise ValueError
  end.

Section Notebook.
Context `{Libraries}.

(** *** [lnPost] *)

(** The function of the notebook; the globals it reads ([spectra], [igal],
    [zred]) are its first arguments. *)
Definition lnPost (spectra : Spectra) (igal : Z) (zred : float)
    (theta : list float) : result float :=
  let lp := lnPrior theta in
  if negb (PrimFloat.is_finite lp) then Ok neg_infinity
  else
    let ttheta := transform theta in
    w ← getkey (wave spectra) "brz";
    let model_flux := (sed ttheta zred (Some w)).2 in
    fl ← getkey (flux spectra) "brz";
    obs ← getitem fl igal;
    dflux ← broadcast_rows PrimFloat.sub model_flux obs;
    iv ← getkey (ivar spectra) "brz";
    ivar_gal ← getitem iv igal;
    weighted ← broadcast_rows PrimFloat.mul (square dflux) ivar_gal;
    let chi2 := np_sum weighted in
    let lnLike := (-0.5 * chi2)%float in
    Ok (lp + lnLike)%float.

(** The log-likelihood of the claim: minus one half of the sum over the
    wavelengths of the squared residual times the inverse variance. *)
Definition chi2_terms (model obs iv : list float) : list float :=
  map (fun k => let d := (nth k model 0 - nth k obs 0)%float in
                (d * d * nth k iv 0)%float)
      (seq 0 (length obs)).

Definition lnLike_spec (model obs iv : list float) : float :=
  (-0.5 * np_sum [chi2_terms model obs iv])%float.

(** *** The global namespace of the kernel *)

Inductive value : Type :=
| VFloat (x : float)
| VInt (n : Z)
| VVec (v : list float)
| VMat (m : list (list float))
| VSpectra (s : Spectra)
| VChain (c : list (list (list float))).

(** A call into [scipy.optimize] or into the MCMC object. *)
Inductive event : Type :=
| EvMinimize (a : minimize_args)
| EvMcmcRun (a : mcmc_args).

Record state : Type := {
  globals : gmap string value;
  draws : nat;
  calls : list event
}.

Definition assign (name : string) (v : value) (s : state) : state :=
  {| globals := <[name := v]> (globals s); draws := draws s; calls := calls s |}.

Definition record_call (e : event) (s : state) : state :=
  {| globals := globals s; draws := draws s; calls := (calls s ++ [e])%list |}.

(** Reading a global name: an unbound name raises [NameError]. *)
Definition load (s : state) (name : string) : result value :=
  match globals s !! name with
  | Some v => Ok v
  | None => Raise (NameError name)
  end.

Definition as_float (v : value) : result float :=
  match v with VFloat x => Ok x | _ => Raise TypeError end.
Definition as_int (v : value) : result Z :=
  match v with VInt n => Ok n | _ => Raise TypeError end.
Definition as_vec (v : value) : result (list float) :=
  match v with VVec x => Ok x | _ => Raise TypeError end.
Definition as_mat (v : value) : result (list (list float)) :=
  match v with VMat x => Ok x | _ => Raise TypeError end.
Definition as_spectra (v : value) : result Spectra :=
  match v with VSpectra x => Ok x | _ => Raise TypeError end.

(** [[priors.sample() for i in range(n)]] *)
Definition sample_n (n : nat) (s : state) : list (list float) * state :=
  (map sample (seq (draws s) n),
   {| globals := globals s; draws := draws s + n; calls := calls s |}).

(** *** The cells, in the order of the notebook *)

(** [wave, flux = fsps_emulator.sed(np.array([...]), 0.1)] *)
Definition cell_sed (s : state) : result state :=
  let wf := sed [10; 0.25; 0.25; 0.25; 0.25; 1e-4; 1e-4; 0; 0; -1]%float
                0.1%float None in
  Ok (assign "flux" (VMat wf.2) (assign "wave" (VMat wf.1) s)).

(** [random_thetas = [priors.sample() for i in range(5)]] *)
Definition cell_random_thetas (s : state) : result state :=
  let '(thetas, s) := sample_n 5 s in
  Ok (assign "random_thetas" (VMat thetas) s).

(** The body of [for tt in random_thetas:], after [tt] is bound. *)
Definition plot_body (s : state) : result state :=
  tt ← (v ← load s "tt"; as_vec v);
  let wf := sed (transform tt) 0.1%float None in
  let s := assign "flux" (VMat wf.2) (assign "wave" (VMat wf.1) s) in
  _ ← (v ← load s "wave"; m ← as_mat v; getitem m 0);
  _ ← (v ← load s "flux"; m ← as_mat v; getitem m 0);
  Ok s.

Fixpoint for_tt (thetas : list (list float)) (s : state) : result state :=
  match thetas with
  | [] => Ok s
  | t :: rest => s' ← plot_body (assign "tt" (VVec t) s); for_tt rest s'
  end.

(** The cell plotting the spectra of the sampled parameters. *)
Definition cell_plot_random (s : state) : result state :=
  thetas ← (v ← load s "random_thetas"; as_mat v);
  for_tt thetas s.

(** [spectra = read_spectra('coadd-...few.fits')] and [igal = 2] *)
Definition cell_read_spectra (s : state) : result state :=
  Ok (assign "igal" (VInt 2)
        (assign "spectra"
           (VSpectra (read_spectra "coadd-66003-20200315-1-00055654.few.fits")) s)).

(** [zbest = Table.read('zbest.coadd.fits', hdu=1)] and
    [zred = zbest['Z'][igal]] *)
Definition cell_zred (s : state) : result state :=
  let zbest_Z := Table_read_Z "zbest.coadd.fits" 1 in
  igal ← (v ← load s "igal"; as_int v);
  zred ← getitem zbest_Z igal;
  Ok (assign "zred" (VFloat zred) s).

(** A call of [lnPost] in the namespace [s]: the globals are read when the
    function runs. *)
Definition call_lnPost (s : state) (theta : list float) : result float :=
  let lp := lnPrior theta in
  if negb (PrimFloat.is_finite lp) then Ok neg_infinity
  else
    zred ← (v ← load s "zred"; as_float v);
    spectra ← (v ← load s "spectra"; as_spectra v);
    igal ← (v ← load s "igal"; as_int v);
    lnPost spectra igal zred theta.

(** The lambda bound to [_lnpost]: [-2.] times [lnPost] of its arguments. *)
Definition _lnpost (s : state) (theta : list float) : result float :=
  l ← call_lnPost s theta; Ok (-2 * l)%float.

(** The optimisation cell. *)
Definition cell_minimize (s : state) : result state :=
  let '(samples, s) := sample_n 10 s in
  x0 ← np_mean_axis0 samples;
  let s := assign "x0" (VVec x0) s in
  tt ← (v ← load s "tt"; as_vec v);
  let a := {| objective := _lnpost s; start := tt;
              method := "Nelder-Mead"; maxiter := 5000 |} in
  let s := record_call (EvMinimize a) s in
  Ok (assign "min_result" (VVec (op_minimize a)) s).

(** [theta_bestfit = min_result['x']] and the best-fit spectrum. *)
Definition cell_bestfit (s : state) : result state :=
  theta_bestfit ← (v ← load s "min_result"; as_vec v);
  let s := assign "theta_bestfit" (VVec theta_bestfit) s in
  zred ← (v ← load s "zred"; as_float v);
  spectra ← (v ← load s "spectra"; as_spectra v);
  w ← getkey (wave spectra) "brz";
  let wf := sed (transform theta_bestfit) zred (Some w) in
  Ok (assign "flux_bestfit" (VMat wf.2) s).

(** [tage, sfh = fsps_emulator.SFH(theta_bestfit, zred)] and
    [_, zh = fsps_emulator.ZH(theta_bestfit, zred)] *)
Definition cell_histories (s : state) : result state :=
  theta_bestfit ← (v ← load s "theta_bestfit"; as_vec v);
  zred ← (v ← load s "zred"; as_float v);
  let ts := SFH theta_bestfit zred in
  let s := assign "sfh" (VVec ts.2) (assign "tage" (VVec ts.1) s) in
  let tz := ZH theta_bestfit zred in
  Ok (assign "zh" (VVec tz.2) s).

(** [mcmc = desi_mcmc.run(...)] *)
Definition cell_mcmc (s : state) : result state :=
  spectra ← (v ← load s "spectra"; as_spectra v);
  w ← getkey (wave spectra) "brz";
  fl ← getkey (flux spectra) "brz";
  igal ← (v ← load s "igal"; as_int v);
  f ← getitem fl igal;
  iv ← getkey (ivar spectra) "brz";
  i ← getitem iv igal;
  zred ← (v ← load s "zred"; as_float v);
  let a := {| wave_obs := w; flux_obs := f; flux_ivar_obs := i; arg_zred := zred;
              sampler := "zeus"; nwalkers := 100; burnin := 100;
              opt_maxiter := 10000; niter := 1000; debug := true |} in
  let s := record_call (EvMcmcRun a) s in
  Ok (assign "mcmc" (VChain (desiMCMC_run a)) s).

(** The cells up to and including the optimisation. *)
Definition run_to_minimize (s : state) : result state :=
  s ← cell_sed s;
  s ← cell_random_thetas s;
  s ← cell_plot_random s;
  s ← cell_read_spectra s;
  s ← cell_zred s;
  cell_minimize s.

(** The notebook down to the MCMC call. The cells that only draw or
    print, and the chain post-processing after the call, bind none of the
    names read here. *)
Definition run_notebook (s : state) : result state :=
  s ← run_to_minimize s;
  s ← cell_bestfit s;
  s ← cell_histories s;
  cell_mcmc s.

(** The calls of [op.minimize] and of [desi_mcmc.run] in a trace. *)
Definition minimize_calls (s : state) : list minimize_args :=
  omap (fun e => match e with EvMinimize a => Some a | _ => None end) (calls s).

Definition mcmc_calls (s : state) : list mcmc_args :=
  omap (fun e => match e with EvMcmcRun a => Some a | _ => None end) (calls s).

End Notebook.

(** A fresh kernel. *)
Definition fresh : state := {| globals := ∅; draws := 0; calls := [] |}.

End SpsFit.

(** ** Small concrete inputs *)

Module Examples.





(** A truth schema of five columns and one joined row whose strings carry
    the padding of the database. *)
Definition demo_columns : list string :=
  ["targetid"; "truez"; "truespectype"; "templatetype"; "flux_g"].

Definition demo_qrow : SpecQA.qrow :=
  {| SpecQA.row_targetid := 8;
     SpecQA.row_Truth :=
       {| Queries.Truth.truez := 0.5; Queries.Truth.truespectype := "GALAXY    ";
          Queries.Truth.templatetype := "ELG       ";
          Queries.Truth.other := fun _ => CFloat 1.5 |};
     SpecQA.row_Target :=
       {| Queries.Target.desi_target := 2; Queries.Target.bgs_target := 0;
          Queries.Target.mws_target := 0; Queries.Target.flux_g := 1.5 |};
     SpecQA.row_ZCat :=
       {| Queries.ZCat.z := 0.5001; Queries.ZCat.zerr := 0.0001;
          Queries.ZCat.zwarn := 0; Queries.ZCat.spectype := "GALAXY" |};
     SpecQA.row_dz := Some 0.0001%float |}.

(** The rows of the progress query for three targets, in the order of the
    query. *)
Definition demo_q2 : list (Z * Z * float) :=
  [ (1, 10, 58921.5%float); (1, 12, 58923.5%float); (2, 5, 58921.25%float);
    (3, 1, 58920.5%float); (3, 2, 58920.75%float); (3, 9, 58925.75%float) ]%Z.

(** Imported packages small enough to run: a prior that is flat on the
    non-negative first parameter, an emulator that scales the wavelength grid
    by the first parameter, draws [0], [1], [2], ... from the prior, three
    galaxies on a grid of three wavelengths, and an optimiser that stays at
    its starting point. *)
Definition demo_spectra : SpsFit.Spectra :=
  {| SpsFit.wave := {[ "brz" := [1; 2; 3]%float ]};
     SpsFit.flux := {[ "brz" := [[1; 1; 1]; [2; 2; 2]; [2; 4; 7]]%float ]};
     SpsFit.ivar := {[ "brz" := [[1; 1; 1]; [1; 1; 1]; [1; 0.5; 2]]%float ]} |}.

Definition demo_libraries : SpsFit.Libraries :=
  {| SpsFit.lnPrior := fun th =>
       match th with
       | x :: _ => if PrimFloat.ltb x 0 then neg_infinity else 0%float
       | [] => 0%float
       end;
     SpsFit.transform := fun th => th;
     SpsFit.sample := fun n => [float_of_Z (Z.of_nat n)];
     SpsFit.sed := fun th z w =>
       ([default [1; 2; 3]%float w],
        [map (fun x => x * List.hd 0 th)%float (default [1; 2; 3]%float w)]);
     SpsFit.SFH := fun th z => (th, th);
     SpsFit.ZH := fun th z => (th, th);
     SpsFit.np_sum := fun m => fold_left PrimFloat.add (concat m) 0%float;
     SpsFit.read_spectra := fun _ => demo_spectra;
     SpsFit.Table_read_Z := fun _ _ => [0.1; 0.2; 0.3]%float;
     SpsFit.op_minimize := fun a => SpsFit.start a;
     SpsFit.desiMCMC_run := fun a => [] |}.

End Examples.

(** ** Definitions for the further properties *)

(** The environment the cell leaves, written out. *)
Definition setup_environ (basedir : string) (environ : gmap string string)
  : gmap string string :=
  <["DESI_SPECTRO_DATA" := basedir +:+ "/spectro/sim/mini"]>
    (<["SPECPROD" := "mini"]>
       (<["PIXPROD" := "mini"]>
          (<["DESI_SPECTRO_SIM" := basedir +:+ "/spectro/sim"]>
             (<["DESI_SPECTRO_REDUX" := basedir +:+ "/spectro/redux"]>
                (<["DESISURVEY_OUTPUT" := basedir +:+ "/survey"]> environ))))).


(** A truth table of three rows: a Lyman-alpha quasar, a quasar of low
    redshift, and a galaxy of high redshift. *)
Definition demo_qso_high : Queries.Truth.row :=
  {| Queries.Truth.truez := 2.5; Queries.Truth.truespectype := "QSO       ";
     Queries.Truth.templatetype := "QSO       ";
     Queries.Truth.other := fun _ => CNone |}.

Definition demo_qso_low : Queries.Truth.row :=
  {| Queries.Truth.truez := 1.5; Queries.Truth.truespectype := "QSO       ";
     Queries.Truth.templatetype := "QSO       ";
     Queries.Truth.other := fun _ => CNone |}.

Definition demo_galaxy : Queries.Truth.row :=
  {| Queries.Truth.truez := 2.5; Queries.Truth.truespectype := "GALAXY    ";
     Queries.Truth.templatetype := "ELG       ";
     Queries.Truth.other := fun _ => CNone |}.

Definition demo_truth : gmap Z Queries.Truth.row :=
  {[ 1%Z := demo_qso_high; 2%Z := demo_qso_low; 3%Z := demo_galaxy ]}.

(** A row of the three-table query and the row of the two-table join it
    comes from carry the same labelled value. *)
Definition Queries_same_pair (r : Queries.dz_row)
    (j : Z * Queries.Truth.row * Queries.ZCat.row) : Prop :=
  Queries.r_dz r = Queries.eval j.1.2 j.2 Queries.dz_label.

(** A target table with the targets of the truth table, and a redshift
    catalogue with two of them. *)
Definition demo_target : gmap Z Queries.Target.row :=
  (fun _ => {| Queries.Target.desi_target := 4; Queries.Target.bgs_target := 0;
               Queries.Target.mws_target := 0; Queries.Target.flux_g := 1.5 |})
  <$> demo_truth.

Definition demo_zcat : gmap Z Queries.ZCat.row :=
  {[ 1%Z := {| Queries.ZCat.z := 2.501; Queries.ZCat.zerr := 0.001;
               Queries.ZCat.zwarn := 0; Queries.ZCat.spectype := "QSO" |};
     3%Z := {| Queries.ZCat.z := 2.4; Queries.ZCat.zerr := 0.001;
               Queries.ZCat.zwarn := 4; Queries.ZCat.spectype := "GALAXY" |} ]}.

(** Padding: a string of whitespace only. *)
Fixpoint all_space (s : string) : bool :=
  match s with
  | EmptyString => true
  | String c rest => is_space c && all_space rest
  end.

(** The string a stripped truth column is made from. *)
Definition stripped_attr (c : string) (r : SpecQA.qrow) : string :=
  if String.eqb c "truespectype" then Queries.Truth.truespectype (SpecQA.row_Truth r)
  else Queries.Truth.templatetype (SpecQA.row_Truth r).

(** * Properties of the cells *)

(** ** The result monad *)

Lemma bind_Ok {A B : Type} (m : result A) (k : A -> result B) (b : B) :
  (m ≫= k) = Ok b -> exists a, m = Ok a /\ k a = Ok b.
Proof. destruct m as [a|e]; simpl; [eauto | discriminate]. Qed.

Lemma rmap_Ok_length {A B : Type} (f : A -> result B) (xs : list A) (ys : list B) :
  rmap f xs = Ok ys -> length ys = length xs.
Proof.
  revert ys. induction xs as [|x xs IH]; intros ys Hr; simpl in Hr.
  - injection Hr as <-. reflexivity.
  - apply bind_Ok in Hr as (y & _ & Hr).
    apply bind_Ok in Hr as (ys' & Hys & Hr).
    injection Hr as <-. simpl. f_equal. eauto.
Qed.

(** A loop whose every iteration returns is the map of the bodies. *)
Lemma rmap_total {A B : Type} (f : A -> result B) (g : A -> B) (xs : list A) :
  (forall x, In x xs -> f x = Ok (g x)) -> rmap f xs = Ok (map g xs).
Proof.
  induction xs as [|x xs IH]; intros Hf; simpl; [reflexivity|].
  rewrite (Hf x) by (left; reflexivity). simpl.
  rewrite IH by (intros; apply Hf; right; assumption). reflexivity.
Qed.

(** ** Initial setup *)

Section SetupFacts.
Import Setup.

Lemma append_assoc (a b c : string) : (a +:+ b) +:+ c = a +:+ (b +:+ c).
Proof.
  induction a as [|x a IH]; [reflexivity|].
  change (String x ((a +:+ b) +:+ c) = String x (a +:+ (b +:+ c))).
  f_equal. exact IH.
Qed.

Lemma is_empty_append (a b : string) :
  is_empty b = false -> is_empty (a +:+ b) = false.
Proof. destruct a; simpl; auto. Qed.

Lemma endswith_sep_append (a b : string) :
  is_empty b = false -> endswith_sep (a +:+ b) = endswith_sep b.
Proof.
  intros Hb. induction a as [|x a IH]; [reflexivity|].
  change (endswith_sep (String x (a +:+ b)) = endswith_sep b).
  pose proof (is_empty_append a b Hb) as Hne.
  destruct (a +:+ b) eqn:E; [discriminate Hne|].
  simpl. simpl in IH. exact IH.
Qed.

(** Joining a relative component to a directory that is not empty and does
    not end in a separator puts one separator between them. *)
Lemma join_step_plain (path b : string) :
  is_empty path = false -> endswith_sep path = false ->
  startswith_sep b = false ->
  join_step path b = path +:+ "/" +:+ b.
Proof.
  intros He Hs Hb. unfold join_step. rewrite Hb, He, Hs. reflexivity.
Qed.

(** What a join with a plain name ends in. *)
Lemma join_step_ends (path b : string) :
  is_empty b = false -> startswith_sep b = false ->
  is_empty (join_step path b) = false /\
  endswith_sep (join_step path b) = endswith_sep b.
Proof.
  intros He Hb. unfold join_step. rewrite Hb.
  destruct (is_empty path || endswith_sep path).
  - split; [apply is_empty_append | apply endswith_sep_append]; assumption.
  - rewrite <- append_assoc.
    split; [apply is_empty_append | apply endswith_sep_append]; assumption.
Qed.

(** [basedir] is never empty and never ends in a separator. *)
Lemma basedir_plain (root : string) :
  let basedir := os_path_join root ["datachallenge"; "reference_runs"; reference_run] in
  is_empty basedir = false /\ endswith_sep basedir = false.
Proof.
  simpl. unfold os_path_join. simpl fold_left.
  apply (join_step_ends _ reference_run); reflexivity.
Qed.

(** With a root that is a plain directory name, [basedir] is the root
    followed by the three components. *)
Lemma basedir_literal (root : string) :
  is_empty root = false -> endswith_sep root = false ->
  os_path_join root ["datachallenge"; "reference_runs"; reference_run]
  = root +:+ "/datachallenge/reference_runs/19.12".
Proof.
  intros He Hs. unfold os_path_join. simpl fold_left.
  rewrite (join_step_plain root "datachallenge") by (assumption || reflexivity).
  destruct (join_step_ends root "datachallenge" eq_refl eq_refl) as [He1 Hs1].
  rewrite (join_step_plain root "datachallenge") in He1, Hs1
    by (assumption || reflexivity).
  rewrite (join_step_plain _ "reference_runs") by (assumption || reflexivity).
  destruct (join_step_ends (root +:+ "/" +:+ "datachallenge") "reference_runs"
              eq_refl eq_refl) as [He2 Hs2].
  rewrite (join_step_plain _ "reference_runs") in He2, Hs2
    by (assumption || reflexivity).
  rewrite (join_step_plain _ reference_run) by (assumption || reflexivity).
  rewrite !append_assoc. reflexivity.
Qed.

(** Below [basedir], one or two plain names are appended with separators. *)
Lemma join_below (dir a : string) :
  is_empty dir = false -> endswith_sep dir = false ->
  is_empty a = false -> startswith_sep a = false ->
  os_path_join dir [a] = dir +:+ "/" +:+ a.
Proof. intros. unfold os_path_join. simpl. now apply join_step_plain. Qed.

Lemma join_below2 (dir a b : string) :
  is_empty dir = false -> endswith_sep dir = false ->
  is_empty a = false -> startswith_sep a = false -> endswith_sep a = false ->
  startswith_sep b = false ->
  os_path_join dir [a; b] = dir +:+ "/" +:+ a +:+ "/" +:+ b.
Proof.
  intros Hd1 Hd2 Ha1 Ha2 Ha3 Hb. unfold os_path_join. simpl fold_left.
  destruct (join_step_ends dir a Ha1 Ha2) as [He Hs].
  rewrite join_step_plain by (assumption || congruence).
  rewrite (join_step_plain dir a) by assumption.
  rewrite !append_assoc. reflexivity.
Qed.

Lemma getenv_Some (environ : gmap string string) (key v : string) :
  environ !! key = Some v -> getenv environ key = Ok v.
Proof. intros E. unfold getenv. now rewrite E. Qed.

End SetupFacts.

(** A lookup in an environment built by assignments to literal names. *)
Ltac env_lookup :=
  rewrite ?lookup_insert_ne by discriminate;
  first [apply lookup_insert_eq | assumption].

(** C10. The setup cell, run with [DESI_ROOT] set, leaves the six
    variables at paths below [basedir], the join of the root and
    [datachallenge/reference_runs/19.12]: [DESISURVEY_OUTPUT] at
    [basedir/survey], [DESI_SPECTRO_REDUX] at [basedir/spectro/redux],
    [DESI_SPECTRO_SIM] at [basedir/spectro/sim], [PIXPROD] and [SPECPROD] at
    [mini], [DESI_SPECTRO_DATA] at [basedir/spectro/sim/mini]. The directories
    the loading cells read are bound by the same cell, and for a root that is
    a plain directory name [basedir] is the root followed by
    [/datachallenge/reference_runs/19.12]. *)
Theorem initial_setup_environment (environ : gmap string string) (root : string) :
  environ !! "DESI_ROOT" = Some root ->
  exists environ' p,
    Setup.initial_setup environ = Ok (environ', p) /\
    Setup.basedir p
      = Setup.os_path_join root ["datachallenge"; "reference_runs"; "19.12"] /\
    environ' !! "DESISURVEY_OUTPUT" = Some (Setup.basedir p +:+ "/survey") /\
    environ' !! "DESI_SPECTRO_REDUX" = Some (Setup.basedir p +:+ "/spectro/redux") /\
    environ' !! "DESI_SPECTRO_SIM" = Some (Setup.basedir p +:+ "/spectro/sim") /\
    environ' !! "PIXPROD" = Some "mini" /\
    environ' !! "SPECPROD" = Some "mini" /\
    environ' !! "DESI_SPECTRO_DATA" = Some (Setup.basedir p +:+ "/spectro/sim/mini") /\
    Setup.surveydir p = Setup.basedir p +:+ "/survey" /\
    Setup.targetdir p = Setup.basedir p +:+ "/targets" /\
    Setup.fibassigndir p = Setup.basedir p +:+ "/fiberassign" /\
    Setup.reduxdir p = Setup.basedir p +:+ "/spectro/redux/mini" /\
    (Setup.is_empty root = false -> Setup.endswith_sep root = false ->
     Setup.basedir p = root +:+ "/datachallenge/reference_runs/19.12").
Proof.
  intros Hroot.
  destruct (basedir_plain root) as [He Hs].
  pose proof (basedir_literal root) as Hlit.
  change Setup.reference_run with "19.12" in *.
  set (b := Setup.os_path_join root ["datachallenge"; "reference_runs"; "19.12"]) in *.
  assert (E1 : Setup.os_path_join b ["survey"] = b +:+ "/survey")
    by (now apply join_below).
  assert (E2 : Setup.os_path_join b ["targets"] = b +:+ "/targets")
    by (now apply join_below).
  assert (E3 : Setup.os_path_join b ["fiberassign"] = b +:+ "/fiberassign")
    by (now apply join_below).
  assert (E4 : Setup.os_path_join b ["spectro"; "redux"] = b +:+ "/spectro/redux")
    by (now apply join_below2).
  assert (E5 : Setup.os_path_join b ["spectro"; "sim"] = b +:+ "/spectro/sim")
    by (now apply join_below2).
  assert (E6 : Setup.os_path_join (b +:+ "/spectro/redux") ["mini"]
               = b +:+ "/spectro/redux/mini").
  { rewrite join_below; try reflexivity.
    - now rewrite append_assoc.
    - now apply is_empty_append.
    - now rewrite endswith_sep_append. }
  assert (E7 : Setup.os_path_join (b +:+ "/spectro/sim") ["mini"]
               = b +:+ "/spectro/sim/mini").
  { rewrite join_below; try reflexivity.
    - now rewrite append_assoc.
    - now apply is_empty_append.
    - now rewrite endswith_sep_append. }
  unfold Setup.initial_setup.
  rewrite (getenv_Some _ _ _ Hroot). cbn [mbind result_bind].
  change Setup.reference_run with "19.12".
  fold b. cbv zeta. rewrite E1, E2, E3, E4, E5.
  rewrite (getenv_Some _ "DESI_SPECTRO_REDUX" (b +:+ "/spectro/redux")) by env_lookup.
  cbn [mbind result_bind].
  rewrite (getenv_Some _ "SPECPROD" "mini") by env_lookup.
  cbn [mbind result_bind].
  rewrite (getenv_Some _ "DESI_SPECTRO_SIM" (b +:+ "/spectro/sim")) by env_lookup.
  cbn [mbind result_bind].
  rewrite (getenv_Some _ "PIXPROD" "mini") by env_lookup.
  cbn [mbind result_bind].
  rewrite E6, E7.
  eexists _, _. split; [reflexivity|].
  cbn [Setup.basedir Setup.surveydir Setup.targetdir Setup.fibassigndir
       Setup.reduxdir].
  repeat split; try reflexivity; env_lookup.
Qed.

(** The setup at the root of the reference runs at NERSC. *)
Lemma initial_setup_environment_witness :
  exists environ' p,
    Setup.initial_setup {[ "DESI_ROOT" := "/global/cfs/cdirs/desi" ]} = Ok (environ', p) /\
    environ' !! "DESI_SPECTRO_DATA"
      = Some "/global/cfs/cdirs/desi/datachallenge/reference_runs/19.12/spectro/sim/mini".
Proof.
  destruct (initial_setup_environment
              {[ "DESI_ROOT" := "/global/cfs/cdirs/desi" ]} "/global/cfs/cdirs/desi"
              (lookup_singleton_eq _ _))
    as (environ' & p & Hrun & Hb & _ & _ & _ & _ & _ & Hdata & _).
  exists environ', p. split; [exact Hrun|].
  rewrite Hdata, Hb. reflexivity.
Defined.

(** ** Loading the database *)

Section LoadingFacts.
Import Loading.












End LoadingFacts.


(** A literal name is not among other literal names. *)
Ltac not_in_names :=
  let Hin := fresh "Hin" in
  intros Hin;
  repeat (apply elem_of_cons in Hin as [Hin|Hin]; [discriminate Hin|]);
  inversion Hin.



(** ** Queries *)


Section QueryFacts.
Import Queries.


Lemma python_dz_formula (r : Z * Truth.row * ZCat.row) :
  python_dz r
  = if PrimFloat.eqb (1.0 + Truth.truez r.1.2) 0 then Raise ZeroDivisionError
    else Ok (dz_formula (Truth.truez r.1.2) (ZCat.z r.2)).
Proof. reflexivity. Qed.

Lemma eval_dz_label (t : Truth.row) (zc : ZCat.row) :
  eval t zc dz_label
  = if PrimFloat.eqb (1.0 + Truth.truez t) 0 then None
    else Some (dz_formula (Truth.truez t) (ZCat.z zc)).
Proof. reflexivity. Qed.


End QueryFacts.


(** ** The update *)

Section UpdateFacts.
Import Queries.

Lemma qso_query_spec (cs : bool) (truth : table Truth.row) (k : Z) (r : Truth.row) :
  (k, r) ∈ qso_query cs truth <-> truth !! k = Some r /\ is_lya_qso cs r = true.
Proof.
  unfold qso_query. rewrite list_elem_of_filter, elem_of_map_to_list. simpl. tauto.
Qed.

Lemma qso_query_NoDup (cs : bool) (truth : table Truth.row) :
  NoDup (qso_query cs truth).*1.
Proof.
  unfold qso_query.
  pose proof (NoDup_fst_map_to_list truth) as Hnd.
  induction (map_to_list truth) as [|[k r] l IH]; simpl; [constructor|].
  apply NoDup_cons in Hnd as [Hk Hnd].
  rewrite filter_cons. simpl.
  destruct (decide (is_lya_qso cs r = true)); [|now apply IH].
  simpl. constructor; [|now apply IH].
  intros Hin. apply Hk.
  apply list_elem_of_fmap in Hin as ([k' r'] & -> & Hin).
  apply list_elem_of_filter in Hin as [_ Hin].
  apply list_elem_of_fmap. now exists (k', r').
Qed.

(** The loop leaves the stored table alone and marks every row of the
    query, with its new template type. *)
Lemma update_loop_spec (q : list (Z * Truth.row)) (s : session) :
  stored (update_loop q s) = stored s /\
  dirty (update_loop q s)
  = (reverse (map (fun kr => (kr.1, set_templatetype "QSO_L" kr.2)) q) ++ dirty s)%list.
Proof.
  unfold update_loop. revert s.
  induction q as [|kr q IH]; intros s; simpl; [split; reflexivity|].
  destruct (IH {| stored := stored s;
                  dirty := (kr.1, set_templatetype "QSO_L" kr.2) :: dirty s |})
    as [Hs Hd].
  split; [exact Hs|]. rewrite Hd. cbn [dirty]. rewrite reverse_cons.
  now rewrite <- app_assoc.
Qed.

(** Writing modified objects back by primary key. *)
Lemma write_back_other (l : list (Z * Truth.row)) (tbl : table Truth.row) (k : Z) :
  k ∉ l.*1 ->
  fold_right (fun kr t => <[kr.1 := kr.2]> t) tbl l !! k = tbl !! k.
Proof.
  induction l as [|[k' v] l IH]; intros Hk; simpl; [reflexivity|].
  rewrite lookup_insert_ne by (intros ->; apply Hk; simpl; left).
  apply IH. intros Hin. apply Hk. simpl. now right.
Qed.

Lemma write_back_elem (l : list (Z * Truth.row)) (tbl : table Truth.row)
    (k : Z) (v : Truth.row) :
  NoDup l.*1 -> (k, v) ∈ l ->
  fold_right (fun kr t => <[kr.1 := kr.2]> t) tbl l !! k = Some v.
Proof.
  induction l as [|[k' v'] l IH]; intros Hnd Hin; [inversion Hin|].
  simpl in *. apply NoDup_cons in Hnd as [Hk' Hnd].
  apply elem_of_cons in Hin as [Heq | Hin].
  - injection Heq as -> ->. apply lookup_insert_eq.
  - rewrite lookup_insert_ne; [now apply IH|].
    intros ->. apply Hk'. apply list_elem_of_fmap. now exists (k, v).
Qed.

(** What the three update cells leave at a primary key. *)
Lemma update_step_lookup (cs : bool) (truth : table Truth.row) (k : Z) :
  update_step cs truth !! k
  = match truth !! k with
    | Some r => Some (if is_lya_qso cs r then set_templatetype "QSO_L" r else r)
    | None => None
    end.
Proof.
  unfold update_step, commit. cbn [stored dirty].
  destruct (update_loop_spec (qso_query cs truth) {| stored := truth; dirty := [] |})
    as [Hs Hd].
  rewrite Hs, Hd. cbn [stored dirty]. rewrite app_nil_r.
  set (marked := reverse (map (fun kr => (kr.1, set_templatetype "QSO_L" kr.2))
                          (qso_query cs truth))).
  assert (Hkeys : marked.*1 = reverse (qso_query cs truth).*1).
  { unfold marked. rewrite fmap_reverse. f_equal.
    change (map ?f ?l) with (f <$> l). rewrite <- list_fmap_compose. reflexivity. }
  assert (Hnd : NoDup marked.*1).
  { rewrite Hkeys, reverse_Permutation. apply qso_query_NoDup. }
  destruct (truth !! k) as [r|] eqn:Ek.
  - destruct (is_lya_qso cs r) eqn:Er.
    + apply write_back_elem; [exact Hnd|].
      unfold marked. rewrite elem_of_reverse.
      apply list_elem_of_fmap. exists (k, r). split; [reflexivity|].
      now apply qso_query_spec.
    + rewrite write_back_other; [exact Ek|].
      rewrite Hkeys, elem_of_reverse. intros Hin.
      apply list_elem_of_fmap in Hin as ([k' r'] & -> & Hin).
      apply qso_query_spec in Hin as [Hr' HP]. simpl in *. congruence.
  - rewrite write_back_other; [exact Ek|].
    rewrite Hkeys, elem_of_reverse. intros Hin.
    apply list_elem_of_fmap in Hin as ([k' r'] & -> & Hin).
    apply qso_query_spec in Hin as [Hr' HP]. simpl in *. congruence.
Qed.

Lemma like_QSO_L (cs : bool) : like_QSO cs "QSO_L" = true.
Proof. destruct cs; reflexivity. Qed.

End UpdateFacts.

(** C5. After the query, the loop and the commit, a truth row that the
    filter [truez >= 2.1] and [templatetype LIKE 'QSO%'] selects has
    [templatetype] equal to ['QSO_L'] and its other columns as before; a row
    the filter does not select is as before; no row is added or removed.
    Running the same query again returns exactly the updated rows, and the
    check of the last cell is [True]. *)
Theorem update_step_sets_QSO_L (case_sensitive_like : bool)
    (truth : gmap Z Queries.Truth.row) :
  let selected := Queries.is_lya_qso case_sensitive_like in
  let truth' := Queries.update_step case_sensitive_like truth in
  (forall k r, truth !! k = Some r -> selected r = true ->
     exists r', truth' !! k = Some r' /\
       Queries.Truth.templatetype r' = "QSO_L" /\
       Queries.Truth.truez r' = Queries.Truth.truez r /\
       Queries.Truth.truespectype r' = Queries.Truth.truespectype r /\
       Queries.Truth.other r' = Queries.Truth.other r) /\
  (forall k r, truth !! k = Some r -> selected r = false -> truth' !! k = Some r) /\
  (forall k, truth !! k = None -> truth' !! k = None) /\
  (forall k r', (k, r') ∈ Queries.qso_query case_sensitive_like truth' <->
     exists r, (k, r) ∈ Queries.qso_query case_sensitive_like truth /\
               r' = Queries.set_templatetype "QSO_L" r) /\
  (forall k r', (k, r') ∈ Queries.qso_query case_sensitive_like truth' ->
     Queries.Truth.templatetype r' = "QSO_L") /\
  Queries.all_QSO_L (Queries.qso_query case_sensitive_like truth') = true.
Proof.
  intros selected truth'.
  assert (Hlook := update_step_lookup case_sensitive_like truth).
  fold truth' in Hlook. fold selected in Hlook.
  assert (Hagain : forall k r',
             (k, r') ∈ Queries.qso_query case_sensitive_like truth' <->
             exists r, (k, r) ∈ Queries.qso_query case_sensitive_like truth /\
                       r' = Queries.set_templatetype "QSO_L" r).
  { intros k r'. rewrite qso_query_spec, Hlook. split.
    - intros [Hk Hsel].
      destruct (truth !! k) as [r|] eqn:Ek; [|discriminate].
      injection Hk as <-.
      destruct (selected r) eqn:Er.
      + exists r. split; [|reflexivity]. now apply qso_query_spec.
      + unfold selected in Er. congruence.
    - intros (r & Hin & ->). apply qso_query_spec in Hin as [Hk Hsel].
      rewrite Hk. fold (selected r). unfold selected at 1. rewrite Hsel.
      split; [reflexivity|].
      unfold Queries.is_lya_qso in *. simpl.
      apply andb_true_iff in Hsel as [Hz _].
      now rewrite Hz, like_QSO_L. }
  split.
  { intros k r Hk Hsel. rewrite Hlook, Hk, Hsel. eexists. split; [reflexivity|].
    repeat split. }
  split.
  { intros k r Hk Hsel. now rewrite Hlook, Hk, Hsel. }
  split.
  { intros k Hk. now rewrite Hlook, Hk. }
  split; [exact Hagain|].
  assert (Hall : forall k r', (k, r') ∈ Queries.qso_query case_sensitive_like truth' ->
                              Queries.Truth.templatetype r' = "QSO_L").
  { intros k r' Hin. apply Hagain in Hin as (r & _ & ->). reflexivity. }
  split; [exact Hall|].
  unfold Queries.all_QSO_L. apply forallb_forall. intros [k r'] Hin.
  apply list_elem_of_In in Hin. simpl. rewrite (Hall k r' Hin). reflexivity.
Qed.

(** ** [truth_query_to_table] *)

Section UpperFacts.

Lemma upper_ascii_inj (x y : ascii) :
  is_ascii_upper x = false -> is_ascii_upper y = false ->
  upper_ascii x = upper_ascii y -> x = y.
Proof.
  unfold is_ascii_upper, upper_ascii, is_ascii_lower.
  intros Hx Hy E.
  pose proof (N_ascii_bounded x) as Bx. pose proof (N_ascii_bounded y) as By.
  assert (Hconv : forall n, (n < 256)%N -> N_of_ascii (ascii_of_N n) = n)
    by (intros; now apply N_ascii_embedding).
  apply (f_equal N_of_ascii) in E.
  rewrite <- (ascii_N_embedding x), <- (ascii_N_embedding y). f_equal.
  destruct (97 <=? N_of_ascii x)%N eqn:X1, (N_of_ascii x <=? 122)%N eqn:X2,
           (97 <=? N_of_ascii y)%N eqn:Y1, (N_of_ascii y <=? 122)%N eqn:Y2;
    cbn [andb] in E; rewrite ?Hconv in E by lia;
    destruct (65 <=? N_of_ascii x)%N eqn:X3, (N_of_ascii x <=? 90)%N eqn:X4,
             (65 <=? N_of_ascii y)%N eqn:Y3, (N_of_ascii y <=? 90)%N eqn:Y4;
    cbn [andb] in Hx, Hy; try discriminate;
    repeat match goal with
           | Hb : (_ <=? _)%N = true |- _ => apply N.leb_le in Hb
           | Hb : (_ <=? _)%N = false |- _ => apply N.leb_gt in Hb
           end; lia.
Qed.

Lemma upper_inj (a b : string) :
  no_upper a = true -> no_upper b = true -> upper a = upper b -> a = b.
Proof.
  revert b. induction a as [|x a IH]; intros [|y b] Ha Hb E; simpl in *;
    try discriminate; [reflexivity|].
  apply andb_true_iff in Ha as [Hx Ha]. apply andb_true_iff in Hb as [Hy Hb].
  apply negb_true_iff in Hx, Hy.
  injection E as Exy E. f_equal; [now apply upper_ascii_inj | now apply IH].
Qed.

(** Comparing upper-cased names is comparing the names. *)
Lemma upper_eqb (a b : string) :
  no_upper a = true -> no_upper b = true ->
  String.eqb (upper a) (upper b) = String.eqb a b.
Proof.
  intros Ha Hb.
  destruct (String.eqb_spec a b) as [->|Hne].
  - apply String.eqb_refl.
  - apply String.eqb_neq. intros E. apply Hne. now apply upper_inj.
Qed.

End UpperFacts.

Section TableFacts.
Import Queries SpecQA.

Lemma mk_MaskedColumn_unmasked (d : list cell) (n : string) (k : nat) :
  length d = k ->
  mk_MaskedColumn d n (replicate k false)
  = Ok {| name := n; data := d; mask := unmasked k |}.
Proof.
  intros <-. unfold mk_MaskedColumn.
  rewrite length_replicate, Nat.eqb_refl. reflexivity.
Qed.

(** The column the loop builds from one truth column. *)
Lemma truth_column_built (q : list qrow) (c : string) :
  no_upper c = true ->
  truth_column q (replicate (length q) false) c = Ok (expected_truth_column q c).
Proof.
  intros Hc. unfold truth_column, expected_truth_column, expected_truth_value.
  change "TRUESPECTYPE" with (upper "truespectype").
  change "TEMPLATETYPE" with (upper "templatetype").
  rewrite !upper_eqb by (assumption || reflexivity).
  destruct (String.eqb_spec c "truespectype") as [->|H1]; cbn [orb].
  - rewrite (rmap_total _ (fun r => CStr (rstrip (Truth.truespectype (row_Truth r)))))
      by reflexivity.
    cbn [mbind result_bind].
    now rewrite mk_MaskedColumn_unmasked by apply length_map.
  - destruct (String.eqb_spec c "templatetype") as [->|H2].
    + rewrite (rmap_total _ (fun r => CStr (rstrip (Truth.templatetype (row_Truth r)))))
        by reflexivity.
      cbn [mbind result_bind].
      now rewrite mk_MaskedColumn_unmasked by apply length_map.
    + now rewrite mk_MaskedColumn_unmasked by apply length_map.
Qed.

Lemma expected_lengths (columns : list string) (q : list qrow) :
  Forall (fun col => length (data col) = length q /\ mask col = unmasked (length q))
         (map (expected_truth_column q) columns ++ expected_appended q).
Proof.
  apply Forall_app. split.
  - apply Forall_map, Forall_forall. intros c _. simpl.
    split; [apply length_map | reflexivity].
  - unfold expected_appended.
    repeat constructor; simpl; apply length_map.
Qed.

End TableFacts.

(** C9. For the column names of the truth table (lower case, and distinct
    from each other and from the appended names once in upper case) and
    every query result [q], [truth_query_to_table] returns a table. Its
    columns are the truth columns in upper case, in order, then
    [DESI_TARGET], [BGS_TARGET], [MWS_TARGET], [Z], [ZERR], [ZWARN], [SPECTYPE]
    and [DZ]. Every column has [len(q)] entries, none masked.
    [TRUESPECTYPE], [TEMPLATETYPE] and [SPECTYPE] hold the stripped strings,
    every other column the values of the rows. *)
Theorem truth_query_to_table_columns (columns : list string) (q : list SpecQA.qrow) :
  Forall (fun c => no_upper c = true) columns ->
  NoDup (map upper columns ++ SpecQA.appended_names) ->
  let t := (map (SpecQA.expected_truth_column q) columns
            ++ SpecQA.expected_appended q)%list in
  SpecQA.truth_query_to_table columns q = Ok t /\
  map SpecQA.name t = (map upper columns ++ SpecQA.appended_names)%list /\
  Forall (fun col => length (SpecQA.data col) = length q /\
                     SpecQA.mask col = SpecQA.unmasked (length q)) t.
Proof.
  intros Hlow Hnd t.
  assert (Hnames : map SpecQA.name t = (map upper columns ++ SpecQA.appended_names)%list).
  { unfold t. rewrite map_app, map_map. reflexivity. }
  split; [|split; [exact Hnames | apply expected_lengths]].
  unfold SpecQA.truth_query_to_table. cbv zeta.
  rewrite (rmap_total (SpecQA.truth_column q (replicate (length q) false))
             (SpecQA.expected_truth_column q) columns).
  2:{ intros c Hc. apply truth_column_built.
      rewrite Forall_forall in Hlow. apply Hlow. now apply list_elem_of_In. }
  cbn [mbind result_bind rmap].
  unfold SpecQA.target_column, SpecQA.zcat_column.
  change (String.eqb "z" "spectype") with false.
  change (String.eqb "zerr" "spectype") with false.
  change (String.eqb "zwarn" "spectype") with false.
  change (String.eqb "spectype" "spectype") with true.
  cbv iota.
  rewrite (rmap_total (fun r => SpecQA.getattr_Target r "desi_target")
             (fun r => CInt (Queries.Target.desi_target (SpecQA.row_Target r))))
    by reflexivity.
  rewrite (rmap_total (fun r => SpecQA.getattr_Target r "bgs_target")
             (fun r => CInt (Queries.Target.bgs_target (SpecQA.row_Target r))))
    by reflexivity.
  rewrite (rmap_total (fun r => SpecQA.getattr_Target r "mws_target")
             (fun r => CInt (Queries.Target.mws_target (SpecQA.row_Target r))))
    by reflexivity.
  rewrite (rmap_total (fun r => SpecQA.getattr_ZCat r "z")
             (fun r => CFloat (Queries.ZCat.z (SpecQA.row_ZCat r))))
    by reflexivity.
  rewrite (rmap_total (fun r => SpecQA.getattr_ZCat r "zerr")
             (fun r => CFloat (Queries.ZCat.zerr (SpecQA.row_ZCat r))))
    by reflexivity.
  rewrite (rmap_total (fun r => SpecQA.getattr_ZCat r "zwarn")
             (fun r => CInt (Queries.ZCat.zwarn (SpecQA.row_ZCat r))))
    by reflexivity.
  rewrite (rmap_total (fun r => v ← SpecQA.getattr_ZCat r "spectype"; SpecQA.np_char_rstrip v)
             (fun r => CStr (rstrip (Queries.ZCat.spectype (SpecQA.row_ZCat r)))))
    by reflexivity.
  cbn [mbind result_bind].
  rewrite !mk_MaskedColumn_unmasked by apply length_map.
  cbn [mbind result_bind].
  change (SpecQA.add_columns [] t = Ok t).
  unfold SpecQA.add_columns. cbn [app].
  rewrite Hnames, (bool_decide_eq_true_2 _ Hnd). cbn [andb].
  pose proof (expected_lengths columns q) as Hlen. fold t in Hlen.
  rewrite Forall_forall in Hlen.
  assert (Hall : forallb (fun c => (length (SpecQA.data c)
                                    =? length (SpecQA.data (List.hd c t)))%nat) t = true).
  { apply forallb_forall. intros c Hc. apply list_elem_of_In in Hc.
    apply Nat.eqb_eq.
    destruct (Hlen c Hc) as [-> _].
    destruct t as [|c0 t']; [inversion Hc|]. simpl.
    destruct (Hlen c0) as [-> _]; [left | reflexivity]. }
  now rewrite Hall.
Qed.

(** The function on a small schema and one row with padded strings. *)
Lemma truth_query_to_table_columns_witness :
  let q := [Examples.demo_qrow] in
  exists t,
    SpecQA.truth_query_to_table Examples.demo_columns q = Ok t /\
    map SpecQA.name t
    = ["TARGETID"; "TRUEZ"; "TRUESPECTYPE"; "TEMPLATETYPE"; "FLUX_G";
       "DESI_TARGET"; "BGS_TARGET"; "MWS_TARGET"; "Z"; "ZERR"; "ZWARN";
       "SPECTYPE"; "DZ"] /\
    map SpecQA.data t !! 2%nat = Some [CStr "GALAXY"].
Proof.
  intros q.
  assert (Hlow : Forall (fun c => no_upper c = true) Examples.demo_columns)
    by (repeat constructor).
  assert (Hnd : NoDup (map upper Examples.demo_columns ++ SpecQA.appended_names))
    by (apply (bool_decide_unpack _); vm_compute; exact I).
  destruct (truth_query_to_table_columns Examples.demo_columns q Hlow Hnd)
    as (Hrun & Hnames & _).
  eexists. split; [exact Hrun|]. split; [exact Hnames | reflexivity].
Defined.

(** ** Survey progress *)

Section ProgressFacts.
Import Progress.

(** *** The order of the rows *)

Lemma row_le_trans (a b c : Z * Z * float) :
  row_le a b = true -> row_le b c = true -> row_le a c = true.
Proof.
  unfold row_le. intros Hab Hbc.
  apply orb_true_iff in Hab, Hbc. apply orb_true_iff.
  rewrite !andb_true_iff, !Z.ltb_lt, !Z.eqb_eq, !Z.leb_le in *. lia.
Qed.

Lemma row_le_refl (a : Z * Z * float) : row_le a a = true.
Proof.
  unfold row_le. apply orb_true_iff. right.
  rewrite andb_true_iff, Z.eqb_eq, Z.leb_le. lia.
Qed.

(** Rows in the order of the query: an earlier row is at most a later
    one. *)
Lemma ordered_lookup (q2 : list (Z * Z * float)) :
  ordered q2 = true ->
  forall a b ra rb, a <= b -> q2 !! a = Some ra -> q2 !! b = Some rb ->
                    row_le ra rb = true.
Proof.
  induction q2 as [|r q2 IH]; intros Ho a b ra rb Hab Ha Hb; [discriminate|].
  assert (Htail : ordered q2 = true).
  { simpl in Ho. destruct q2; [reflexivity|]. now apply andb_true_iff in Ho as [_ ?]. }
  assert (Hhead : forall c rc, q2 !! c = Some rc -> row_le r rc = true).
  { intros c rc Hc. destruct q2 as [|r' q2']; [discriminate|].
    simpl in Ho. apply andb_true_iff in Ho as [Hrr' _].
    apply (row_le_trans _ r'); [exact Hrr'|].
    apply (IH Htail 0 c); [lia | reflexivity | exact Hc]. }
  destruct a as [|a], b as [|b]; simpl in Ha, Hb.
  - injection Ha as <-. injection Hb as <-. apply row_le_refl.
  - injection Ha as <-. now apply (Hhead b).
  - lia.
  - apply (IH Htail a b); [lia | assumption | assumption].
Qed.

Lemma ordered_targetid (q2 : list (Z * Z * float)) :
  ordered q2 = true -> nondecreasing (map (fun r => r.1.1) q2).
Proof.
  intros Ho a b x y Hab Ha Hb.
  rewrite list_lookup_fmap in Ha, Hb.
  destruct (q2 !! a) as [ra|] eqn:Ea; [|discriminate].
  destruct (q2 !! b) as [rb|] eqn:Eb; [|discriminate].
  injection Ha as <-. injection Hb as <-.
  pose proof (ordered_lookup _ Ho a b ra rb Hab Ea Eb) as Hle.
  unfold row_le in Hle. apply orb_true_iff in Hle.
  rewrite andb_true_iff, Z.ltb_lt, Z.eqb_eq in Hle. lia.
Qed.

(** *** Sorting a sorted array *)

Lemma nondecreasing_tail (x : Z) (l : list Z) :
  nondecreasing (x :: l) -> nondecreasing l.
Proof.
  intros H a b u v Hab Ha Hb. apply (H (S a) (S b)); [lia | exact Ha | exact Hb].
Qed.

Lemma insert_sorted_pairs (ar : list Z) (s : nat) :
  nondecreasing ar ->
  fold_right insert_stable [] (zip ar (seq s (length ar))) = zip ar (seq s (length ar)).
Proof.
  revert s. induction ar as [|x ar IH]; intros s Hs; [reflexivity|].
  simpl. rewrite IH by (eapply nondecreasing_tail; eassumption).
  destruct ar as [|y ar]; [reflexivity|]. simpl.
  assert (x <= y)%Z as Hxy by (apply (Hs 0 1); [lia | reflexivity | reflexivity]).
  apply Z.leb_le in Hxy. now rewrite Hxy.
Qed.

Lemma argsort_sorted (ar : list Z) :
  nondecreasing ar -> argsort ar = seq 0 (length ar).
Proof.
  intros Hs. unfold argsort. rewrite insert_sorted_pairs by assumption.
  apply snd_zip. now rewrite length_seq.
Qed.

Lemma map_nth_seq (ar : list Z) :
  map (fun i => nth i ar 0%Z) (seq 0 (length ar)) = ar.
Proof.
  apply list_eq. intros i. rewrite list_lookup_fmap.
  destruct (ar !! i) as [x|] eqn:Ei.
  - assert (i < length ar) as Hlt by (eapply lookup_lt_Some; eassumption).
    rewrite lookup_seq_lt by assumption. simpl. f_equal.
    now apply nth_lookup_Some with (d := 0%Z) in Ei.
  - apply lookup_ge_None in Ei. now rewrite lookup_seq_ge.
Qed.

(** *** The mask, its non-zero positions and the counts *)

Lemma mask_of_length (l : list Z) : length (mask_of l) = length l.
Proof.
  destruct l as [|x l]; [reflexivity|]. simpl. f_equal.
  rewrite length_zip_with. simpl. lia.
Qed.

Lemma mask_of_0 (l : list Z) (x : Z) : l !! 0 = Some x -> mask_of l !! 0 = Some true.
Proof. destruct l; [discriminate | reflexivity]. Qed.

Lemma mask_of_S (l : list Z) (j : nat) (b : bool) :
  mask_of l !! S j = Some b ->
  exists p a, l !! j = Some p /\ l !! S j = Some a /\ b = negb (a =? p)%Z.
Proof.
  destruct l as [|x l]; [discriminate|]. simpl. intros Hb.
  apply lookup_zip_with_Some in Hb as (a & p & -> & Ha & Hp). eauto.
Qed.

(** Positions of the mask that are set, counted from [s]. *)
Lemma nonzero_from_elem (s : nat) (m : list bool) (k i : nat) :
  nonzero_from s m !! k = Some i ->
  exists j, i = s + j /\ m !! j = Some true.
Proof.
  revert s k. induction m as [|b m IH]; intros s k Hk; [discriminate|].
  simpl in Hk. destruct b.
  - destruct k as [|k]; simpl in Hk.
    + injection Hk as <-. exists 0. split; [lia | reflexivity].
    + destruct (IH _ _ Hk) as (j & -> & Hj). exists (S j). split; [lia | exact Hj].
  - destruct (IH _ _ Hk) as (j & -> & Hj). exists (S j). split; [lia | exact Hj].
Qed.

(** The first entry of the positions followed by the end: the first set
    position, or the end when there is none. *)
Lemma nonzero_from_first (s : nat) (m : list bool) (i : nat) :
  (nonzero_from s m ++ [s + length m])%list !! 0 = Some i ->
  exists j, i = s + j /\ j <= length m /\
            (forall j', j' < j -> m !! j' = Some false) /\
            (j < length m -> m !! j = Some true).
Proof.
  revert s. induction m as [|b m IH]; intros s Hi.
  - simpl in Hi. injection Hi as <-. exists 0. simpl.
    split; [lia|]. split; [lia|]. split; intros; lia.
  - simpl in Hi. destruct b.
    + simpl in Hi. injection Hi as <-. exists 0. simpl.
      split; [lia|]. split; [lia|]. split; [intros; lia | reflexivity].
    + replace (s + S (length m)) with (S s + length m) in Hi by lia.
      destruct (IH _ Hi) as (j & -> & Hle & Hbefore & Hat).
      exists (S j). simpl. split; [lia|]. split; [lia|]. split.
      * intros [|j'] Hj'; [reflexivity | apply Hbefore; lia].
      * intros Hlt. apply Hat. lia.
Qed.

(** Two consecutive entries of the positions followed by the end bound a
    run: the mask is set at the first, clear strictly between them, and set
    at the second unless it is the end. *)
Lemma nonzero_from_consecutive (s : nat) (m : list bool) (k i i' : nat) :
  (nonzero_from s m ++ [s + length m])%list !! k = Some i ->
  (nonzero_from s m ++ [s + length m])%list !! S k = Some i' ->
  exists a a', i = s + a /\ i' = s + a' /\ a < a' <= length m /\
               m !! a = Some true /\
               (forall j, a < j < a' -> m !! j = Some false) /\
               (a' < length m -> m !! a' = Some true).
Proof.
  revert s k. induction m as [|b m IH]; intros s k Hi Hi'.
  - simpl in Hi'. destruct k; discriminate.
  - assert (Hshift : forall a a',
               a < a' <= length m -> m !! a = Some true ->
               (forall j, a < j < a' -> m !! j = Some false) ->
               (a' < length m -> m !! a' = Some true) ->
               exists a0 a0', S s + a = s + a0 /\ S s + a' = s + a0' /\
                 a0 < a0' <= length (b :: m) /\ (b :: m) !! a0 = Some true /\
                 (forall j, a0 < j < a0' -> (b :: m) !! j = Some false) /\
                 (a0' < length (b :: m) -> (b :: m) !! a0' = Some true)).
    { intros a a' Hlt Ha Hmid Hend. exists (S a), (S a'). simpl.
      split; [lia|]. split; [lia|]. split; [lia|]. split; [exact Ha|]. split.
      - intros [|j] Hj; [lia | apply Hmid; lia].
      - intros Hl. apply Hend. lia. }
    simpl in Hi, Hi'.
    replace (s + S (length m)) with (S s + length m) in Hi, Hi' by lia.
    destruct b.
    + destruct k as [|k]; simpl in Hi, Hi'.
      * injection Hi as <-.
        destruct (nonzero_from_first _ _ _ Hi') as (j & -> & Hle & Hbefore & Hat).
        exists 0, (S j). simpl.
        split; [lia|]. split; [lia|]. split; [lia|]. split; [reflexivity|]. split.
        -- intros [|j'] Hj'; [lia | apply Hbefore; lia].
        -- intros Hlt. apply Hat. lia.
      * destruct (IH _ _ Hi Hi') as (a & a' & -> & -> & Hlt & Ha & Hmid & Hend).
        now apply Hshift.
    + destruct (IH _ _ Hi Hi') as (a & a' & -> & -> & Hlt & Ha & Hmid & Hend).
      now apply Hshift.
Qed.

(** [a[mask]] and the positions of the mask go together. *)
Lemma select_seq (s : nat) (m : list bool) :
  select m (seq s (length m)) = nonzero_from s m.
Proof.
  revert s. induction m as [|b m IH]; intros s; [reflexivity|].
  simpl. rewrite IH. destruct b; reflexivity.
Qed.

Lemma select_lookup {A : Type} (s : nat) (m : list bool) (a : list A) (k i : nat) :
  length m = length a ->
  nonzero_from s m !! k = Some i ->
  exists j, i = s + j /\ select m a !! k = a !! j.
Proof.
  revert s a k. induction m as [|b m IH]; intros s [|x a] k Hlen Hk;
    try discriminate.
  simpl in Hk, Hlen. injection Hlen as Hlen. simpl. destruct b.
  - destruct k as [|k]; simpl in Hk.
    + injection Hk as <-. exists 0. split; [lia | reflexivity].
    + destruct (IH _ _ _ Hlen Hk) as (j & -> & Hj). exists (S j). split; [lia | exact Hj].
  - destruct (IH _ _ _ Hlen Hk) as (j & -> & Hj). exists (S j). split; [lia | exact Hj].
Qed.

Lemma select_length {A : Type} (s : nat) (m : list bool) (a : list A) :
  length m = length a -> length (select m a) = length (nonzero_from s m).
Proof.
  revert s a. induction m as [|b m IH]; intros s [|x a] Hlen; try discriminate;
    [reflexivity|].
  simpl in Hlen. injection Hlen as Hlen. simpl.
  destruct b; simpl; rewrite (IH (S s)) by assumption; reflexivity.
Qed.

Lemma select_elem {A : Type} (m : list bool) (a : list A) (j : nat) (x : A) :
  m !! j = Some true -> a !! j = Some x -> x ∈ select m a.
Proof.
  revert a j. induction m as [|b m IH]; intros [|y a] j Hm Ha; try discriminate.
  destruct j as [|j]; simpl in Hm, Ha.
  - injection Hm as ->. injection Ha as <-. simpl. left.
  - simpl. destruct b; [right|]; eapply IH; eassumption.
Qed.

(** [np.diff]: differences of neighbours. *)
Lemma diff_lookup (l : list nat) (k : nat) (c : nat) :
  diff l !! k = Some c <->
  exists x y, l !! k = Some x /\ l !! S k = Some y /\ c = y - x.
Proof.
  revert k. induction l as [|a l IH]; intros k.
  - simpl. split; [discriminate | intros (? & ? & ? & _); discriminate].
  - destruct l as [|b l].
    + simpl. split; [discriminate|].
      intros (? & ? & _ & Hy & _). destruct k; discriminate.
    + change (diff (a :: b :: l)) with ((b - a) :: diff (b :: l)).
      destruct k as [|k].
      * simpl. split.
        -- intros [= <-]. eauto.
        -- intros (x & y & [= <-] & [= <-] & ->). reflexivity.
      * change (((b - a) :: diff (b :: l)) !! S k) with (diff (b :: l) !! k).
        rewrite IH. reflexivity.
Qed.

Lemma diff_length (l : list nat) (e : nat) : length (diff (l ++ [e])%list) = length l.
Proof.
  induction l as [|a l IH]; [reflexivity|].
  destruct l as [|b l]; [reflexivity|].
  change (diff ((a :: b :: l) ++ [e])%list) with ((b - a) :: diff ((b :: l) ++ [e])%list).
  cbn [length]. f_equal. exact IH.
Qed.

(** *** [np.unique] on an array that is already in order *)

Lemma np_unique_sorted (ar : list Z) :
  nondecreasing ar ->
  u_values (np_unique ar) = select (mask_of ar) ar /\
  u_index (np_unique ar) = nonzero_from 0 (mask_of ar) /\
  u_counts (np_unique ar)
  = diff (nonzero_from 0 (mask_of ar) ++ [length ar])%list.
Proof.
  intros Hs. unfold np_unique. cbn [u_values u_index u_counts].
  rewrite (argsort_sorted _ Hs), map_nth_seq, mask_of_length.
  split; [reflexivity|]. split; [|reflexivity].
  rewrite <- (mask_of_length ar). apply select_seq.
Qed.

(** Inside a run the value does not change. *)
Lemma run_constant (ar : list Z) (a d : nat) (x : Z) :
  ar !! a = Some x ->
  a + d < length ar ->
  (forall j, a < j <= a + d -> mask_of ar !! j = Some false) ->
  ar !! (a + d) = Some x.
Proof.
  intros Ha. induction d as [|d IH]; intros Hlen Hmid.
  - now rewrite Nat.add_0_r.
  - assert (Hprev : ar !! (a + d) = Some x).
    { apply IH; [lia|]. intros j Hj. apply Hmid. lia. }
    replace (a + S d) with (S (a + d)) by lia.
    assert (Hm : mask_of ar !! S (a + d) = Some false) by (apply Hmid; lia).
    apply mask_of_S in Hm as (p & y & Hp & Hy & Hb).
    rewrite Hprev in Hp. injection Hp as <-.
    symmetry in Hb. apply negb_false_iff, Z.eqb_eq in Hb. now subst y.
Qed.

(** For each unique value, the first index plus the count minus one is the
    last position of the value in the array. *)
Lemma np_unique_last (ar : list Z) (k : nat) (t : Z) :
  nondecreasing ar ->
  u_values (np_unique ar) !! k = Some t ->
  exists i c,
    u_index (np_unique ar) !! k = Some i /\
    u_counts (np_unique ar) !! k = Some c /\
    1 <= c /\ i + c <= length ar /\
    ar !! (i + c - 1) = Some t /\
    (forall j, ar !! j = Some t -> j <= i + c - 1).
Proof.
  intros Hs Hk.
  destruct (np_unique_sorted ar Hs) as (Hv & Hi & Hc).
  rewrite Hv in Hk. rewrite Hi, Hc. clear Hv Hi Hc.
  set (m := mask_of ar) in *.
  assert (Hlen : length m = length ar) by apply mask_of_length.
  set (I := nonzero_from 0 m) in *.
  assert (HlenI : length (select m ar) = length I) by now apply select_length.
  assert (Hki : k < length I).
  { rewrite <- HlenI. eapply lookup_lt_Some; eassumption. }
  destruct (lookup_lt_is_Some_2 I k Hki) as [i Hi].
  assert (HJk : (I ++ [0 + length m])%list !! k = Some i)
    by (now apply lookup_app_l_Some).
  assert (exists i', (I ++ [0 + length m])%list !! S k = Some i') as [i' HJk'].
  { apply lookup_lt_is_Some_2. rewrite length_app. simpl. lia. }
  destruct (nonzero_from_consecutive 0 m k i i' HJk HJk')
    as (a & a' & Ea & Ea' & Hlt & Hma & Hmid & Hend).
  simpl in Ea, Ea'. subst a a'.
  destruct (select_lookup 0 m ar k i Hlen Hi) as (j0 & Ej0 & Hsel).
  simpl in Ej0. subst j0. rewrite Hk in Hsel. symmetry in Hsel.
  exists i, (i' - i).
  split; [exact Hi|]. split.
  { apply diff_lookup. exists i, i'. simpl in HJk, HJk'. rewrite Hlen in HJk, HJk'.
    auto. }
  split; [lia|]. split; [lia|].
  assert (Hlast : ar !! (i' - 1) = Some t).
  { replace (i' - 1) with (i + (i' - 1 - i)) by lia.
    apply run_constant; [exact Hsel | lia |].
    intros j Hj. apply Hmid. lia. }
  split; [now replace (i + (i' - i) - 1) with (i' - 1) by lia|].
  intros j Hj. replace (i + (i' - i) - 1) with (i' - 1) by lia.
  destruct (Nat.le_gt_cases j (i' - 1)) as [|Hgt]; [assumption|exfalso].
  assert (Hjlen : j < length ar) by (eapply lookup_lt_Some; eassumption).
  assert (Hi'len : i' < length m) by lia.
  specialize (Hend Hi'len).
  destruct i' as [|e]; [lia|].
  apply mask_of_S in Hend as (p & y & Hp & Hy & Hb).
  replace (S e - 1) with e in Hlast by lia.
  rewrite Hlast in Hp. injection Hp as <-.
  assert (t <= y)%Z by (apply (Hs e (S e)); [lia | assumption | assumption]).
  assert (y <= t)%Z by (apply (Hs (S e) j); [lia | assumption | assumption]).
  symmetry in Hb. apply negb_true_iff, Z.eqb_neq in Hb. lia.
Qed.

(** Every value of the array is among the unique values. *)
Lemma np_unique_complete (ar : list Z) (j : nat) (t : Z) :
  nondecreasing ar -> ar !! j = Some t -> t ∈ u_values (np_unique ar).
Proof.
  intros Hs. destruct (np_unique_sorted ar Hs) as (-> & _ & _).
  revert t. induction j as [|j IH]; intros t Hj.
  - eapply select_elem; [|exact Hj]. eapply mask_of_0; eassumption.
  - assert (is_Some (mask_of ar !! S j)) as [b Hb].
    { apply lookup_lt_is_Some_2. rewrite mask_of_length.
      eapply lookup_lt_Some; eassumption. }
    destruct b.
    + eapply select_elem; eassumption.
    + apply mask_of_S in Hb as (p & y & Hp & Hy & Hb).
      rewrite Hj in Hy. injection Hy as <-.
      symmetry in Hb. apply negb_false_iff, Z.eqb_eq in Hb. subst p.
      now apply IH.
Qed.

Lemma np_unique_lengths (ar : list Z) :
  nondecreasing ar ->
  length (u_index (np_unique ar)) = length (u_values (np_unique ar)) /\
  length (u_counts (np_unique ar)) = length (u_values (np_unique ar)).
Proof.
  intros Hs. destruct (np_unique_sorted ar Hs) as (-> & -> & ->).
  rewrite diff_length.
  rewrite (select_length 0) by apply mask_of_length. split; reflexivity.
Qed.

(** *** Indexing with an index array *)

Lemma getitem_nat {A : Type} (a : list A) (n : nat) (x : A) :
  a !! n = Some x -> getitem a (Z.of_nat n) = Ok x.
Proof.
  intros Hn. unfold getitem.
  destruct (Z.ltb_spec (Z.of_nat n) 0) as [|_]; [lia|].
  destruct (Z.ltb_spec (Z.of_nat n) 0) as [|_]; [lia|].
  now rewrite Nat2Z.id, Hn.
Qed.

Lemma take_indices_nat {A : Type} (a : list A) (idx : list nat) :
  (forall n, n ∈ idx -> n < length a) ->
  exists out, take_indices a (map Z.of_nat idx) = Ok out /\
              length out = length idx /\
              forall k n, idx !! k = Some n -> out !! k = a !! n.
Proof.
  unfold take_indices. induction idx as [|n idx IH]; intros Hin.
  - exists []. repeat split. intros k n Hk. discriminate.
  - destruct IH as (out & Hout & Hlen & Hlook); [intros; apply Hin; now right|].
    destruct (lookup_lt_is_Some_2 a n) as [x Hx]; [apply Hin; left|].
    exists (x :: out). simpl. rewrite (getitem_nat _ _ _ Hx). simpl.
    rewrite Hout. simpl. split; [reflexivity|]. split; [now rewrite Hlen|].
    intros [|k] n' Hk; simpl in Hk.
    + injection Hk as <-. now rewrite Hx.
    + simpl. now apply Hlook.
Qed.

End ProgressFacts.

(** C8. On the rows of the query in the order [targetid], [expid], the cell
    returns, for every row, its [targetid] among the unique ones, and for the
    [k]-th unique [targetid] the [expid] and the [mjd] of one row of that
    target: the last such row of the result, whose [expid] is the largest of
    the target. The cell raises only on an empty result, which it cannot
    unpack. *)
Theorem last_observation_is_last (q2 : list (Z * Z * float)) :
  Progress.ordered q2 = true ->
  match Progress.last_observation q2 with
  | Ok (unique_targetid, unique_expid, unique_mjd) =>
      length unique_expid = length unique_targetid /\
      length unique_mjd = length unique_targetid /\
      (forall n r, q2 !! n = Some r -> r.1.1 ∈ unique_targetid) /\
      (forall k t, unique_targetid !! k = Some t ->
         exists n e m,
           q2 !! n = Some (t, e, m) /\
           unique_expid !! k = Some e /\
           unique_mjd !! k = Some m /\
           forall n' e' m', q2 !! n' = Some (t, e', m') -> n' <= n /\ (e' <= e)%Z)
  | Raise _ => q2 = []
  end.
Proof.
  intros Ho. unfold Progress.last_observation.
  destruct q2 as [|r0 q] eqn:Eq; [reflexivity|]. rewrite <- Eq in *.
  replace (zip_star q2) with (Ok q2) by (rewrite Eq; reflexivity).
  cbn [mbind result_bind]. cbv zeta.
  set (targetid := map (fun r => r.1.1) q2).
  set (expid := map (fun r => r.1.2) q2).
  set (mjd := map (fun r => r.2) q2).
  pose proof (ordered_targetid q2 Ho) as Hs. fold targetid in Hs.
  set (u := Progress.np_unique targetid).
  destruct (np_unique_lengths targetid Hs) as [HlenI HlenC]. fold u in HlenI, HlenC.
  set (ends := zip_with (fun i c => i + c - 1) (Progress.u_index u) (Progress.u_counts u)).
  (* every group has an index, a count and a last position in range *)
  assert (Hgroup : forall k t, Progress.u_values u !! k = Some t ->
            exists i c, Progress.u_index u !! k = Some i /\
                        Progress.u_counts u !! k = Some c /\
                        1 <= c /\ i + c <= length targetid /\
                        targetid !! (i + c - 1) = Some t /\
                        (forall j, targetid !! j = Some t -> j <= i + c - 1))
    by (intros k t; now apply np_unique_last).
  assert (Hidx : zip_with (fun i c => (Z.of_nat i + (Z.of_nat c - 1))%Z)
                          (Progress.u_index u) (Progress.u_counts u)
                 = map Z.of_nat ends).
  { unfold ends. apply list_eq. intros k.
    rewrite list_lookup_fmap, !lookup_zip_with.
    destruct (Progress.u_index u !! k) as [i|] eqn:Ei; [|reflexivity].
    destruct (Progress.u_counts u !! k) as [c|] eqn:Ec; [|reflexivity].
    simpl. f_equal.
    assert (is_Some (Progress.u_values u !! k)) as [t Ht].
    { apply lookup_lt_is_Some_2. rewrite <- HlenI. eapply lookup_lt_Some; eassumption. }
    destruct (Hgroup k t Ht) as (i1 & c1 & Hi1 & Hc1 & Hc & _).
    rewrite Ei in Hi1. rewrite Ec in Hc1. injection Hi1 as <-. injection Hc1 as <-.
    lia. }
  rewrite Hidx.
  assert (Hends : forall k n, ends !! k = Some n ->
            exists t, Progress.u_values u !! k = Some t /\
                      targetid !! n = Some t /\
                      (forall j, targetid !! j = Some t -> j <= n)).
  { intros k n Hk. unfold ends in Hk.
    apply lookup_zip_with_Some in Hk as (i & c & -> & Ei & Ec).
    assert (is_Some (Progress.u_values u !! k)) as [t Ht].
    { apply lookup_lt_is_Some_2. rewrite <- HlenI. eapply lookup_lt_Some; eassumption. }
    destruct (Hgroup k t Ht) as (i1 & c1 & Hi1 & Hc1 & _ & _ & Hlast & Hmax).
    rewrite Ei in Hi1. rewrite Ec in Hc1. injection Hi1 as <-. injection Hc1 as <-.
    eauto. }
  assert (Hlen_ends : length ends = length (Progress.u_values u)).
  { unfold ends. rewrite length_zip_with. lia. }
  assert (Hrange : forall n, n ∈ ends -> n < length q2).
  { intros n Hn. apply list_elem_of_lookup in Hn as [k Hk].
    destruct (Hends k n Hk) as (t & _ & Hn & _).
    apply lookup_lt_Some in Hn. unfold targetid in Hn. now rewrite length_map in Hn. }
  destruct (take_indices_nat expid ends) as (ue & -> & Hlen_ue & Hue).
  { intros n Hn. unfold expid. rewrite length_map. now apply Hrange. }
  destruct (take_indices_nat mjd ends) as (um & -> & Hlen_um & Hum).
  { intros n Hn. unfold mjd. rewrite length_map. now apply Hrange. }
  cbn [mbind result_bind].
  split; [lia|]. split; [lia|]. split.
  - intros n r Hn. apply (np_unique_complete targetid n); [exact Hs|].
    unfold targetid. now rewrite list_lookup_fmap, Hn.
  - intros k t Hk.
    assert (is_Some (ends !! k)) as [n Hn].
    { apply lookup_lt_is_Some_2. rewrite Hlen_ends. eapply lookup_lt_Some; eassumption. }
    destruct (Hends k n Hn) as (t' & Ht' & Hlast & Hmax).
    fold u in Hk. rewrite Hk in Ht'. injection Ht' as <-.
    unfold targetid in Hlast. rewrite list_lookup_fmap in Hlast.
    destruct (q2 !! n) as [[[t1 e] m]|] eqn:En; [|discriminate].
    simpl in Hlast. injection Hlast as ->.
    exists n, e, m. split; [exact En|].
    split; [rewrite (Hue k n Hn); unfold expid; now rewrite list_lookup_fmap, En|].
    split; [rewrite (Hum k n Hn); unfold mjd; now rewrite list_lookup_fmap, En|].
    intros n' e' m' Hn'.
    assert (Hle : n' <= n).
    { apply Hmax. unfold targetid. now rewrite list_lookup_fmap, Hn'. }
    split; [exact Hle|].
    pose proof (ordered_lookup q2 Ho n' n _ _ Hle Hn' En) as Hrow.
    unfold Progress.row_le in Hrow. simpl in Hrow.
    apply orb_true_iff in Hrow.
    rewrite andb_true_iff, Z.ltb_lt, Z.leb_le in Hrow. lia.
Qed.

(** Three targets, two of them observed more than once. *)
Lemma last_observation_is_last_witness :
  Progress.last_observation Examples.demo_q2
  = Ok ([1; 2; 3]%Z, [12; 5; 9]%Z, [58923.5; 58921.25; 58925.75]%float) /\
  forall n r, Examples.demo_q2 !! n = Some r -> r.1.1 ∈ [1; 2; 3]%Z.
Proof.
  pose proof (last_observation_is_last Examples.demo_q2 eq_refl) as H.
  assert (E : Progress.last_observation Examples.demo_q2
              = Ok ([1; 2; 3]%Z, [12; 5; 9]%Z, [58923.5; 58921.25; 58925.75]%float))
    by (vm_compute; reflexivity).
  rewrite E in H. destruct H as (_ & _ & Hall & _).
  split; [exact E | exact Hall].
Defined.

(** ** The spectral fit *)

Section FitFacts.
Import SpsFit.
Context `{Libraries}.

(** Arrays of one length meet element by element. *)
Lemma broadcast_same_length (f : float -> float -> float) (xs ys : list float) :
  length xs = length ys -> broadcast f xs ys = Ok (zip_with f xs ys).
Proof. intros E. unfold broadcast. now rewrite E, Nat.eqb_refl. Qed.

(** The residuals, squared and weighted as the code computes them on whole
    arrays, are the terms of the sum over the wavelengths. *)
Lemma weighted_residuals (model obs iv : list float) :
  length model = length obs -> length iv = length obs ->
  zip_with PrimFloat.mul
    (map (fun x => x * x)%float (zip_with PrimFloat.sub model obs)) iv
  = chi2_terms model obs iv.
Proof.
  intros Hm Hi. unfold chi2_terms. apply list_eq. intros k.
  rewrite lookup_zip_with, list_lookup_fmap, lookup_zip_with, list_lookup_fmap.
  destruct (obs !! k) as [o|] eqn:Eo.
  - assert (Hk : k < length obs) by (eapply lookup_lt_Some; eassumption).
    destruct (lookup_lt_is_Some_2 model k) as [x Ex]; [lia|].
    destruct (lookup_lt_is_Some_2 iv k) as [v Ev]; [lia|].
    rewrite Ex, Ev, lookup_seq_lt by assumption. simpl.
    rewrite (nth_lookup_Some _ _ 0%float _ Ex), (nth_lookup_Some _ _ 0%float _ Eo),
            (nth_lookup_Some _ _ 0%float _ Ev).
    reflexivity.
  - apply lookup_ge_None in Eo.
    rewrite lookup_seq_ge by assumption.
    destruct (model !! k); reflexivity.
Qed.

End FitFacts.

(** C1. For every parameter vector, [lnPost] returns minus infinity when
    the log-prior is not finite. When it is finite, with the observed flux
    and inverse variance of galaxy [igal] on the grid of [wave['brz']] and
    the emulator returning one spectrum on that grid, it returns the
    log-prior plus minus one half of the sum over the wavelengths of the
    squared difference of the emulated and the observed flux times the
    inverse variance. *)
Theorem lnPost_log_posterior `{SpsFit.Libraries} (spectra : SpsFit.Spectra)
    (igal : Z) (zred : float) (theta : list float) :
  (PrimFloat.is_finite (SpsFit.lnPrior theta) = false ->
   SpsFit.lnPost spectra igal zred theta = Ok neg_infinity) /\
  (PrimFloat.is_finite (SpsFit.lnPrior theta) = true ->
   forall (w : list float) (fl ivs : list (list float)) (model obs iv : list float),
     SpsFit.wave spectra !! "brz" = Some w ->
     SpsFit.flux spectra !! "brz" = Some fl -> getitem fl igal = Ok obs ->
     SpsFit.ivar spectra !! "brz" = Some ivs -> getitem ivs igal = Ok iv ->
     (SpsFit.sed (SpsFit.transform theta) zred (Some w)).2 = [model] ->
     length model = length obs -> length iv = length obs ->
     SpsFit.lnPost spectra igal zred theta
     = Ok (SpsFit.lnPrior theta + SpsFit.lnLike_spec model obs iv)%float).
Proof.
  unfold SpsFit.lnPost. split.
  - intros ->. reflexivity.
  - intros -> w fl ivs model obs iv Hw Hfl Hobs Hivs Hiv Hsed Hlm Hli.
    cbn [negb]. cbv zeta.
    unfold getkey. rewrite Hw, Hfl, Hivs. cbn [mbind result_bind].
    rewrite Hobs, Hiv, Hsed. cbn [mbind result_bind].
    unfold SpsFit.broadcast_rows. cbn [rmap].
    rewrite broadcast_same_length by assumption. cbn [mbind result_bind].
    unfold SpsFit.square. cbn [map rmap].
    rewrite broadcast_same_length
      by (rewrite length_map, length_zip_with; lia).
    cbn [mbind result_bind].
    rewrite weighted_residuals by assumption.
    reflexivity.
Qed.

(** The log-posterior of the third galaxy of the small data set at the
    parameter [2]: the emulated flux is [2; 4; 6], the residuals are
    [0; 0; -1] and the result is [0 - 0.5 * 2]. *)
Lemma lnPost_log_posterior_witness :
  @SpsFit.lnPost Examples.demo_libraries Examples.demo_spectra 2 0.3 [2]%float
  = Ok (-1)%float /\
  @SpsFit.lnPost Examples.demo_libraries Examples.demo_spectra 2 0.3 [-2]%float
  = Ok neg_infinity.
Proof.
  destruct (@lnPost_log_posterior Examples.demo_libraries Examples.demo_spectra
              2 0.3 [2]%float) as [_ Hfin].
  destruct (@lnPost_log_posterior Examples.demo_libraries Examples.demo_spectra
              2 0.3 [-2]%float) as [Hinf _].
  split.
  - rewrite (Hfin eq_refl [1; 2; 3]%float
               [[1; 1; 1]; [2; 2; 2]; [2; 4; 7]]%float
               [[1; 1; 1]; [1; 1; 1]; [1; 0.5; 2]]%float
               [2; 4; 6]%float [2; 4; 7]%float [1; 0.5; 2]%float);
      try reflexivity.
  - apply Hinf. reflexivity.
Defined.

(** ** The namespace through the cells *)

Section NamespaceFacts.
Import SpsFit.
Context `{Libraries}.

Lemma load_assign_eq (s : state) (name : string) (v : value) :
  load (assign name v s) name = Ok v.
Proof. unfold load, assign. cbn [globals]. now rewrite lookup_insert_eq. Qed.

Lemma load_assign_ne (s : state) (name other : string) (v : value) :
  name <> other -> load (assign name v s) other = load s other.
Proof. intros Hne. unfold load, assign. cbn [globals]. now rewrite lookup_insert_ne. Qed.

Lemma load_record_call (s : state) (e : event) (name : string) :
  load (record_call e s) name = load s name.
Proof. reflexivity. Qed.

(** Reading a name from a namespace built by assignments to literal
    names. *)
Ltac ns_load :=
  repeat first [ rewrite load_assign_eq
               | rewrite load_assign_ne by discriminate
               | rewrite load_record_call ];
  try reflexivity;
  unfold load; cbn [globals];
  rewrite ?lookup_insert_ne by discriminate;
  rewrite ?lookup_insert_eq; try reflexivity.

(** The body of the plotting loop rebinds [wave] and [flux] only. *)
Lemma plot_body_Ok (s s' : state) :
  plot_body s = Ok s' ->
  draws s' = draws s /\ calls s' = calls s /\
  forall name, name <> "wave" -> name <> "flux" -> load s' name = load s name.
Proof.
  unfold plot_body. intros Hb.
  apply bind_Ok in Hb as (tt & _ & Hb).
  apply bind_Ok in Hb as (x & _ & Hb).
  apply bind_Ok in Hb as (y & _ & Hb).
  injection Hb as <-. split; [reflexivity|]. split; [reflexivity|].
  intros name Hw Hf. now rewrite !load_assign_ne by congruence.
Qed.

(** After the loop, [tt] is the last of the sampled parameters. *)
Lemma for_tt_Ok (thetas : list (list float)) (s s' : state) :
  for_tt thetas s = Ok s' ->
  draws s' = draws s /\ calls s' = calls s /\
  (forall name, name <> "wave" -> name <> "flux" -> name <> "tt" ->
                load s' name = load s name) /\
  (forall t, last thetas = Some t -> load s' "tt" = Ok (VVec t)).
Proof.
  revert s. induction thetas as [|t thetas IH]; intros s Hl; simpl in Hl.
  - injection Hl as <-. repeat split. intros t Ht. discriminate.
  - apply bind_Ok in Hl as (s1 & Hbody & Hl).
    apply plot_body_Ok in Hbody as (Hd1 & Hc1 & Hg1).
    destruct (IH _ Hl) as (Hd & Hc & Hg & Htt).
    split; [now rewrite Hd, Hd1|]. split; [now rewrite Hc, Hc1|]. split.
    + intros name Hw Hf Ht. rewrite Hg, Hg1 by assumption.
      now apply load_assign_ne.
    + intros t' Hlast. destruct thetas as [|t2 thetas].
      * simpl in Hlast. injection Hlast as <-. simpl in Hl. injection Hl as <-.
        rewrite Hg1 by discriminate. apply load_assign_eq.
      * apply Htt. exact Hlast.
Qed.

(** With [zred], [spectra] and [igal] bound, the call of [lnPost] in the
    namespace is [lnPost] on their values. *)
Lemma call_lnPost_bound (s : state) (sp : Spectra) (igal : Z) (zred : float)
    (theta : list float) :
  load s "zred" = Ok (VFloat zred) ->
  load s "spectra" = Ok (VSpectra sp) ->
  load s "igal" = Ok (VInt igal) ->
  call_lnPost s theta = lnPost sp igal zred theta.
Proof.
  intros Hz Hs Hi. unfold call_lnPost, lnPost.
  destruct (negb (PrimFloat.is_finite (lnPrior theta))); [reflexivity|].
  rewrite Hz, Hs, Hi. reflexivity.
Qed.

(** The state after the optimisation cell. *)
Lemma run_to_minimize_Ok (s0 s : state) :
  run_to_minimize s0 = Ok s ->
  let sp := read_spectra "coadd-66003-20200315-1-00055654.few.fits" in
  exists (x0 : list float) (z : float) (a : minimize_args),
    np_mean_axis0 (map sample (seq (draws s0 + 5) 10)) = Ok x0 /\
    getitem (Table_read_Z "zbest.coadd.fits" 1) 2 = Ok z /\
    calls s = (calls s0 ++ [EvMinimize a])%list /\
    start a = sample (draws s0 + 4) /\
    method a = "Nelder-Mead" /\ maxiter a = 5000%Z /\
    (forall theta, objective a theta = (l ← lnPost sp 2 z theta; Ok (-2 * l)%float)) /\
    load s "x0" = Ok (VVec x0) /\
    load s "tt" = Ok (VVec (sample (draws s0 + 4))) /\
    load s "spectra" = Ok (VSpectra sp) /\
    load s "igal" = Ok (VInt 2) /\
    load s "zred" = Ok (VFloat z) /\
    load s "min_result" = Ok (VVec (op_minimize a)).
Proof.
  unfold run_to_minimize. intros Hrun. cbv zeta.
  set (sp := read_spectra "coadd-66003-20200315-1-00055654.few.fits").
  apply bind_Ok in Hrun as (s1 & H1 & Hrun).
  apply bind_Ok in Hrun as (s2 & H2 & Hrun).
  apply bind_Ok in Hrun as (s3 & H3 & Hrun).
  apply bind_Ok in Hrun as (s4 & H4 & Hrun).
  apply bind_Ok in Hrun as (s5 & H5 & H6).
  unfold cell_sed in H1. injection H1 as <-.
  unfold cell_random_thetas, sample_n in H2. injection H2 as <-.
  unfold cell_plot_random in H3. rewrite load_assign_eq in H3.
  cbn [mbind result_bind as_mat] in H3.
  apply for_tt_Ok in H3 as (Hd3 & Hc3 & Hg3 & Htt3).
  cbn [draws calls assign] in Hd3, Hc3.
  specialize (Htt3 (sample (draws s0 + 4))).
  rewrite <- (Nat.add_comm 4) in Htt3. specialize (Htt3 eq_refl).
  rewrite (Nat.add_comm 4) in Htt3.
  unfold cell_read_spectra in H4. injection H4 as <-. fold sp in H5.
  unfold cell_zred in H5. rewrite load_assign_eq in H5.
  cbn [mbind result_bind as_int] in H5.
  apply bind_Ok in H5 as (z & Hz & H5). injection H5 as <-.
  unfold cell_minimize, sample_n in H6. cbn [draws assign globals calls] in H6.
  rewrite Hd3 in H6.
  apply bind_Ok in H6 as (x0 & Hx0 & H6).
  replace (draws s0 + 5) with (5 + draws s0) by lia.
  match type of H6 with context [load ?st "tt"] =>
    assert (Htt : load st "tt" = Ok (VVec (sample (draws s0 + 4))))
  end.
  { rewrite load_assign_ne by discriminate.
    unfold load at 1. cbn [globals].
    rewrite !lookup_insert_ne by discriminate.
    exact Htt3. }
  rewrite Htt in H6. cbn [mbind result_bind as_vec] in H6.
  injection H6 as <-.
  eexists x0, z, _.
  split; [rewrite (Nat.add_comm 5); exact Hx0|].
  split; [exact Hz|].
  split; [cbn [calls record_call assign]; now rewrite Hc3|].
  split; [reflexivity|]. split; [reflexivity|]. split; [reflexivity|].
  split.
  { intros theta. cbn [objective]. unfold _lnpost.
    rewrite (call_lnPost_bound _ sp 2 z); [reflexivity | ns_load ..]. }
  split; [ns_load|]. split; [ns_load; exact Htt3|].
  split; [ns_load|]. split; [ns_load|]. split; ns_load.
Qed.

(** The cells between the optimisation and the MCMC call bind names of
    their own and call neither the optimiser nor the sampler. *)
Lemma cell_bestfit_Ok (s s' : state) :
  cell_bestfit s = Ok s' ->
  calls s' = calls s /\
  forall name, name <> "theta_bestfit" -> name <> "flux_bestfit" ->
               load s' name = load s name.
Proof.
  unfold cell_bestfit. intros Hc.
  apply bind_Ok in Hc as (th & _ & Hc).
  apply bind_Ok in Hc as (z & _ & Hc).
  apply bind_Ok in Hc as (sp & _ & Hc).
  apply bind_Ok in Hc as (w & _ & Hc).
  injection Hc as <-. split; [reflexivity|].
  intros name H1 H2. now rewrite !load_assign_ne by congruence.
Qed.

Lemma cell_histories_Ok (s s' : state) :
  cell_histories s = Ok s' ->
  calls s' = calls s /\
  forall name, name <> "tage" -> name <> "sfh" -> name <> "zh" ->
               load s' name = load s name.
Proof.
  unfold cell_histories. intros Hc.
  apply bind_Ok in Hc as (th & _ & Hc).
  apply bind_Ok in Hc as (z & _ & Hc).
  injection Hc as <-. split; [reflexivity|].
  intros name H1 H2 H3. now rewrite !load_assign_ne by congruence.
Qed.

(** The MCMC cell passes what the names [spectra], [igal] and [zred] hold. *)
Lemma cell_mcmc_Ok (s s' : state) (sp : Spectra) (igal : Z) (zred : float) :
  load s "spectra" = Ok (VSpectra sp) ->
  load s "igal" = Ok (VInt igal) ->
  load s "zred" = Ok (VFloat zred) ->
  cell_mcmc s = Ok s' ->
  exists w fl f ivs i,
    wave sp !! "brz" = Some w /\
    flux sp !! "brz" = Some fl /\ getitem fl igal = Ok f /\
    ivar sp !! "brz" = Some ivs /\ getitem ivs igal = Ok i /\
    calls s' = (calls s ++
                [EvMcmcRun {| wave_obs := w; flux_obs := f; flux_ivar_obs := i;
                              arg_zred := zred; sampler := "zeus"; nwalkers := 100;
                              burnin := 100; opt_maxiter := 10000; niter := 1000;
                              debug := true |}])%list.
Proof.
  intros Hsp Hig Hz. unfold cell_mcmc. rewrite Hsp, Hig, Hz.
  cbn [mbind result_bind as_spectra as_int as_float]. intros Hc.
  apply bind_Ok in Hc as (w & Hw & Hc).
  apply bind_Ok in Hc as (fl & Hfl & Hc).
  apply bind_Ok in Hc as (f & Hf & Hc).
  apply bind_Ok in Hc as (ivs & Hivs & Hc).
  apply bind_Ok in Hc as (i & Hi & Hc).
  injection Hc as <-.
  unfold getkey in Hw, Hfl, Hivs.
  destruct (wave sp !! "brz") as [w'|]; [injection Hw as ->|discriminate].
  destruct (flux sp !! "brz") as [fl'|]; [injection Hfl as ->|discriminate].
  destruct (ivar sp !! "brz") as [ivs'|]; [injection Hivs as ->|discriminate].
  exists w, fl, f, ivs, i. repeat split; assumption.
Qed.

End NamespaceFacts.

(** C7. When the notebook runs down to the MCMC cell, [desi_mcmc.run] is
    called once, with the wavelength grid [wave['brz']], the rows [igal = 2]
    of [flux['brz']] and of [ivar['brz']] of the spectra file as
    [read_spectra] returned them, the redshift [zbest['Z'][2]], and
    [sampler='zeus'], [nwalkers=100], [burnin=100], [opt_maxiter=10000],
    [niter=1000] (and [debug=True]). *)
Theorem mcmc_run_arguments `{SpsFit.Libraries} (s0 s : SpsFit.state) :
  SpsFit.run_notebook s0 = Ok s ->
  exists w fl f ivs i z,
    SpsFit.wave (SpsFit.read_spectra "coadd-66003-20200315-1-00055654.few.fits")
      !! "brz" = Some w /\
    SpsFit.flux (SpsFit.read_spectra "coadd-66003-20200315-1-00055654.few.fits")
      !! "brz" = Some fl /\
    getitem fl 2 = Ok f /\
    SpsFit.ivar (SpsFit.read_spectra "coadd-66003-20200315-1-00055654.few.fits")
      !! "brz" = Some ivs /\
    getitem ivs 2 = Ok i /\
    getitem (SpsFit.Table_read_Z "zbest.coadd.fits" 1) 2 = Ok z /\
    SpsFit.mcmc_calls s
    = (SpsFit.mcmc_calls s0 ++
       [{| SpsFit.wave_obs := w; SpsFit.flux_obs := f; SpsFit.flux_ivar_obs := i;
           SpsFit.arg_zred := z; SpsFit.sampler := "zeus"; SpsFit.nwalkers := 100;
           SpsFit.burnin := 100; SpsFit.opt_maxiter := 10000;
           SpsFit.niter := 1000; SpsFit.debug := true |}])%list.
Proof.
  unfold SpsFit.run_notebook. intros Hrun.
  apply bind_Ok in Hrun as (s1 & H1 & Hrun).
  apply bind_Ok in Hrun as (s2 & H2 & Hrun).
  apply bind_Ok in Hrun as (s3 & H3 & H4).
  apply run_to_minimize_Ok in H1
    as (x0 & z & a & _ & Hz & Hc1 & _ & _ & _ & _ & _ & _ & Hsp & Hig & Hzr & _).
  apply cell_bestfit_Ok in H2 as (Hc2 & Hg2).
  apply cell_histories_Ok in H3 as (Hc3 & Hg3).
  apply (cell_mcmc_Ok s3 s
           (SpsFit.read_spectra "coadd-66003-20200315-1-00055654.few.fits") 2 z) in H4 as (w & fl & f & ivs & i & Hw & Hfl & Hf & Hivs & Hi & Hc4).
  - exists w, fl, f, ivs, i, z. repeat (split; [assumption|]).
    unfold SpsFit.mcmc_calls. rewrite Hc4, Hc3, Hc2, Hc1.
    rewrite !omap_app. cbn [omap app]. now rewrite app_nil_r.
  - rewrite Hg3, Hg2 by discriminate. exact Hsp.
  - rewrite Hg3, Hg2 by discriminate. exact Hig.
  - rewrite Hg3, Hg2 by discriminate. exact Hzr.
Qed.

(** The notebook run on the small data set from a fresh kernel. *)
Lemma mcmc_run_arguments_witness :
  exists s,
    @SpsFit.run_notebook Examples.demo_libraries SpsFit.fresh = Ok s /\
    @SpsFit.mcmc_calls s
    = [{| SpsFit.wave_obs := [1; 2; 3]%float; SpsFit.flux_obs := [2; 4; 7]%float;
          SpsFit.flux_ivar_obs := [1; 0.5; 2]%float; SpsFit.arg_zred := 0.3%float;
          SpsFit.sampler := "zeus"; SpsFit.nwalkers := 100; SpsFit.burnin := 100;
          SpsFit.opt_maxiter := 10000; SpsFit.niter := 1000; SpsFit.debug := true |}].
Proof.
  destruct (@SpsFit.run_notebook Examples.demo_libraries SpsFit.fresh) as [s|e] eqn:Hrun.
  - exists s. split; [reflexivity|].
    destruct (@mcmc_run_arguments Examples.demo_libraries _ _ Hrun)
      as (w & fl & f & ivs & i & z & Hw & Hfl & Hf & Hivs & Hi & Hz & Hcalls).
    rewrite Hcalls.
    vm_compute in Hw. injection Hw as <-.
    vm_compute in Hfl. injection Hfl as <-.
    vm_compute in Hivs. injection Hivs as <-.
    vm_compute in Hf. injection Hf as <-.
    vm_compute in Hi. injection Hi as <-.
    vm_compute in Hz. injection Hz as <-.
    reflexivity.
  - vm_compute in Hrun. discriminate Hrun.
Defined.

Section NameErrorFacts.
Import SpsFit.
Context `{Libraries}.

Lemma getitem_no_NameError {A : Type} (a : list A) (n : Z) :
  no_NameError (getitem a n).
Proof.
  intros name. unfold getitem. cbv zeta.
  repeat case_match; discriminate.
Qed.

Lemma plot_body_no_NameError (s : state) (t : list float) :
  load s "tt" = Ok (VVec t) -> no_NameError (plot_body s).
Proof.
  intros Ht name. unfold plot_body. rewrite Ht.
  cbn [mbind result_bind as_vec].
  rewrite (load_assign_ne _ "flux" "wave") by discriminate.
  rewrite !load_assign_eq.
  cbn [mbind result_bind as_mat].
  destruct (getitem (sed (transform t) 0.1 None).1 0) as [x|e] eqn:E1;
    cbn [mbind result_bind].
  - destruct (getitem (sed (transform t) 0.1 None).2 0) as [y|e] eqn:E2;
      cbn [mbind result_bind]; [discriminate|].
    intros Heq. injection Heq as ->. now apply getitem_no_NameError in E2.
  - intros Heq. injection Heq as ->. now apply getitem_no_NameError in E1.
Qed.

Lemma for_tt_no_NameError (thetas : list (list float)) (s : state) :
  no_NameError (for_tt thetas s).
Proof.
  revert s. induction thetas as [|t thetas IH]; intros s name; simpl; [discriminate|].
  destruct (plot_body (assign "tt" (VVec t) s)) as [s'|e] eqn:E; cbn [mbind result_bind].
  - apply IH.
  - intros Heq. injection Heq as ->.
    eapply plot_body_no_NameError; [|exact E]. apply load_assign_eq.
Qed.

(** The name [tt] that the optimisation cell reads is bound by the loop of
    an earlier cell: the cells up to the optimisation raise no [NameError]. *)
Lemma run_to_minimize_no_NameError (s0 : state) : no_NameError (run_to_minimize s0).
Proof.
  intros name. unfold run_to_minimize.
  unfold cell_sed. cbn [mbind result_bind].
  unfold cell_random_thetas, sample_n. cbn [mbind result_bind].
  unfold cell_plot_random. rewrite load_assign_eq. cbn [mbind result_bind as_mat].
  destruct (for_tt _ _) as [s3|e] eqn:E3; cbn [mbind result_bind];
    [|intros Heq; injection Heq as ->; now apply for_tt_no_NameError in E3].
  apply for_tt_Ok in E3 as (Hd3 & Hc3 & Hg3 & Htt3).
  specialize (Htt3 _ eq_refl).
  unfold cell_read_spectra. cbn [mbind result_bind].
  unfold cell_zred. rewrite load_assign_eq. cbn [mbind result_bind as_int].
  destruct (getitem _ 2) as [z|e] eqn:Ez; cbn [mbind result_bind];
    [|intros Heq; injection Heq as ->; now apply getitem_no_NameError in Ez].
  unfold cell_minimize, sample_n.
  destruct (np_mean_axis0 _) as [x0|e] eqn:Ex; cbn [mbind result_bind].
  - rewrite load_assign_ne by discriminate.
    unfold load at 1. cbn [globals assign].
    rewrite !lookup_insert_ne by discriminate.
    fold (load s3 "tt"). rewrite Htt3. discriminate.
  - intros Heq. injection Heq as ->. unfold np_mean_axis0 in Ex.
    match type of Ex with
    | match ?l with _ => _ end = _ => destruct l; [discriminate|]
    end.
    destruct (forallb _ _); discriminate.
Qed.

End NameErrorFacts.

(** C3. On the small data set, from a fresh kernel, the cells run down to
    the optimisation without an exception, and [op.minimize] is called once,
    with the method Nelder-Mead and at most 5000 iterations, on minus two
    times [lnPost]. Its starting point is [tt], the last of the five
    parameter vectors sampled for the plot, [4]; the mean [x0] of the ten
    samples drawn in the cell, [9.5], is bound and not passed. *)
Theorem minimize_starts_from_tt :
  exists s a,
    @SpsFit.run_to_minimize Examples.demo_libraries SpsFit.fresh = Ok s /\
    @SpsFit.minimize_calls s = [a] /\
    SpsFit.method a = "Nelder-Mead" /\
    SpsFit.maxiter a = 5000%Z /\
    (forall theta,
        SpsFit.objective a theta
        = (l ← @SpsFit.lnPost Examples.demo_libraries Examples.demo_spectra 2 0.3 theta;
           Ok (-2 * l)%float)) /\
    SpsFit.start a = [4]%float /\
    @SpsFit.load s "tt" = Ok (SpsFit.VVec [4]%float) /\
    @SpsFit.load s "x0" = Ok (SpsFit.VVec [9.5]%float) /\
    SpsFit.start a <> [9.5]%float.
Proof.
  destruct (@SpsFit.run_to_minimize Examples.demo_libraries SpsFit.fresh)
    as [s|e] eqn:Hrun; [|vm_compute in Hrun; discriminate Hrun].
  destruct (@run_to_minimize_Ok Examples.demo_libraries _ _ Hrun)
    as (x0 & z & a & Hx0 & Hz & Hcalls & Hstart & Hmeth & Hmax & Hobj
        & Hlx0 & Htt & _).
  vm_compute in Hx0. injection Hx0 as <-.
  vm_compute in Hz. injection Hz as <-.
  exists s, a. split; [reflexivity|].
  split; [unfold SpsFit.minimize_calls; now rewrite Hcalls|].
  split; [exact Hmeth|]. split; [exact Hmax|]. split; [exact Hobj|].
  split; [exact Hstart|]. split; [exact Htt|]. split; [exact Hlx0|].
  rewrite Hstart. intros Heq.
  pose proof (f_equal (fun v => PrimFloat.eqb (List.hd 0%float v) 4) Heq) as Hb.
  vm_compute in Hb. discriminate Hb.
Qed.

(** * Further properties *)

(** ** The setup cell *)

Section SetupMore.
Import Setup.

Lemma initial_setup_explicit (environ : gmap string string) (root : string) :
  environ !! "DESI_ROOT" = Some root ->
  let b := os_path_join root ["datachallenge"; "reference_runs"; "19.12"] in
  initial_setup environ
  = Ok (setup_environ b environ,
        {| basedir := b; surveydir := b +:+ "/survey"; targetdir := b +:+ "/targets";
           fibassigndir := b +:+ "/fiberassign";
           reduxdir := b +:+ "/spectro/redux/mini";
           simdatadir := b +:+ "/spectro/sim/mini" |}).
Proof.
  intros Hroot b.
  destruct (basedir_plain root) as [He Hs].
  change reference_run with "19.12" in *. fold b in He, Hs.
  assert (E1 : os_path_join b ["survey"] = b +:+ "/survey") by (now apply join_below).
  assert (E2 : os_path_join b ["targets"] = b +:+ "/targets") by (now apply join_below).
  assert (E3 : os_path_join b ["fiberassign"] = b +:+ "/fiberassign")
    by (now apply join_below).
  assert (E4 : os_path_join b ["spectro"; "redux"] = b +:+ "/spectro/redux")
    by (now apply join_below2).
  assert (E5 : os_path_join b ["spectro"; "sim"] = b +:+ "/spectro/sim")
    by (now apply join_below2).
  assert (E6 : os_path_join (b +:+ "/spectro/redux") ["mini"] = b +:+ "/spectro/redux/mini").
  { rewrite join_below; try reflexivity.
    - now rewrite append_assoc.
    - now apply is_empty_append.
    - now rewrite endswith_sep_append. }
  assert (E7 : os_path_join (b +:+ "/spectro/sim") ["mini"] = b +:+ "/spectro/sim/mini").
  { rewrite join_below; try reflexivity.
    - now rewrite append_assoc.
    - now apply is_empty_append.
    - now rewrite endswith_sep_append. }
  unfold initial_setup.
  rewrite (getenv_Some _ _ _ Hroot). cbn [mbind result_bind].
  change reference_run with "19.12". fold b. cbv zeta.
  rewrite E1, E2, E3, E4, E5.
  rewrite (getenv_Some _ "DESI_SPECTRO_REDUX" (b +:+ "/spectro/redux")) by env_lookup.
  cbn [mbind result_bind].
  rewrite (getenv_Some _ "SPECPROD" "mini") by env_lookup.
  cbn [mbind result_bind].
  rewrite (getenv_Some _ "DESI_SPECTRO_SIM" (b +:+ "/spectro/sim")) by env_lookup.
  cbn [mbind result_bind].
  rewrite (getenv_Some _ "PIXPROD" "mini") by env_lookup.
  cbn [mbind result_bind].
  rewrite E6, E7. reflexivity.
Qed.

End SetupMore.

(** X1. The setup cell runs to its end exactly when [DESI_ROOT] is set;
    otherwise the only exception it raises is [KeyError('DESI_ROOT')]: the
    four variables it reads back later are the ones it has just set. *)
Theorem initial_setup_needs_only_DESI_ROOT (environ : gmap string string) :
  match environ !! "DESI_ROOT" with
  | Some _ => is_ok (Setup.initial_setup environ) = true
  | None => Setup.initial_setup environ = Raise (KeyError "DESI_ROOT")
  end.
Proof.
  destruct (environ !! "DESI_ROOT") as [root|] eqn:Hroot.
  - now rewrite (initial_setup_explicit environ root Hroot).
  - unfold Setup.initial_setup, Setup.getenv. now rewrite Hroot.
Qed.

(** X2. The setup cell changes six variables only: every other variable of
    the environment, [DESI_ROOT] among them, is as before, and no variable
    is removed. *)
Theorem initial_setup_frame (environ environ' : gmap string string)
    (p : Setup.paths) (name : string) :
  Setup.initial_setup environ = Ok (environ', p) ->
  name ∉ ["DESISURVEY_OUTPUT"; "DESI_SPECTRO_REDUX"; "DESI_SPECTRO_SIM";
          "PIXPROD"; "SPECPROD"; "DESI_SPECTRO_DATA"] ->
  environ' !! name = environ !! name.
Proof.
  intros Hrun Hname.
  destruct (environ !! "DESI_ROOT") as [root|] eqn:Hroot.
  - rewrite (initial_setup_explicit environ root Hroot) in Hrun.
    injection Hrun as <- _. unfold setup_environ.
    rewrite !lookup_insert_ne; [reflexivity|..];
      intros <-; apply Hname; repeat (first [left | right]).
  - unfold Setup.initial_setup, Setup.getenv in Hrun. rewrite Hroot in Hrun.
    discriminate Hrun.
Qed.

Lemma initial_setup_frame_witness :
  exists environ' p,
    Setup.initial_setup {[ "DESI_ROOT" := "/desi"; "HOME" := "/home/user" ]}
    = Ok (environ', p) /\
    environ' !! "HOME" = Some "/home/user".
Proof.
  destruct (Setup.initial_setup {[ "DESI_ROOT" := "/desi"; "HOME" := "/home/user" ]})
    as [[environ' p]|e] eqn:Hrun; [|vm_compute in Hrun; discriminate Hrun].
  exists environ', p. split; [reflexivity|].
  rewrite (initial_setup_frame _ _ _ "HOME" Hrun).
  - vm_compute. reflexivity.
  - not_in_names.
Defined.

(** Both sides read the same assignment to a literal name. *)
Ltac same_value :=
  rewrite ?lookup_insert_ne by discriminate; rewrite lookup_insert_eq;
  symmetry;
  rewrite ?lookup_insert_ne by discriminate; now rewrite lookup_insert_eq.

(** X3. Running the setup cell a second time changes nothing: on the
    environment it left, it returns the same environment and the same
    directories. *)
Theorem initial_setup_idempotent (environ environ' : gmap string string)
    (p : Setup.paths) :
  Setup.initial_setup environ = Ok (environ', p) ->
  Setup.initial_setup environ' = Ok (environ', p).
Proof.
  intros Hrun.
  destruct (environ !! "DESI_ROOT") as [root|] eqn:Hroot.
  - rewrite (initial_setup_explicit environ root Hroot) in Hrun.
    injection Hrun as <- <-.
    set (b := Setup.os_path_join root ["datachallenge"; "reference_runs"; "19.12"]).
    assert (Hroot' : setup_environ b environ !! "DESI_ROOT" = Some root).
    { unfold setup_environ. now rewrite !lookup_insert_ne by discriminate. }
    change (Setup.join_step (Setup.join_step (Setup.join_step root "datachallenge")
                                             "reference_runs") "19.12") with b.
    rewrite (initial_setup_explicit _ root Hroot'). fold b.
    f_equal. f_equal.
    apply map_eq. intros k. unfold setup_environ.
    assert (Hcase : forall key : string, key = k \/ key <> k)
      by (intros key; destruct (decide (key = k)); auto).
    destruct (Hcase "DESI_SPECTRO_DATA") as [<-|?]; [now rewrite !lookup_insert_eq|].
    destruct (Hcase "SPECPROD") as [<-|?]; [same_value|].
    destruct (Hcase "PIXPROD") as [<-|?]; [same_value|].
    destruct (Hcase "DESI_SPECTRO_SIM") as [<-|?]; [same_value|].
    destruct (Hcase "DESI_SPECTRO_REDUX") as [<-|?]; [same_value|].
    destruct (Hcase "DESISURVEY_OUTPUT") as [<-|?]; [same_value|].
    now rewrite !lookup_insert_ne by assumption.
  - unfold Setup.initial_setup, Setup.getenv in Hrun. rewrite Hroot in Hrun.
    discriminate Hrun.
Qed.

Lemma initial_setup_idempotent_witness :
  exists environ' p,
    Setup.initial_setup {[ "DESI_ROOT" := "/desi" ]} = Ok (environ', p) /\
    Setup.initial_setup environ' = Ok (environ', p).
Proof.
  destruct (Setup.initial_setup {[ "DESI_ROOT" := "/desi" ]})
    as [[environ' p]|e] eqn:Hrun; [|vm_compute in Hrun; discriminate Hrun].
  exists environ', p. split; [reflexivity|].
  exact (initial_setup_idempotent _ _ _ Hrun).
Defined.

(** ** The queries and the update *)


Section FloatOrder.

(** The comparison of the specification of floats, read the other way. *)
Lemma SFcompare_Lt_swap (a b : SpecFloat.spec_float) :
  SpecFloat.SFcompare a b = Some Lt -> SpecFloat.SFcompare b a = Some Gt.
Proof.
  destruct a as [sa|sa| |sa ma ea], b as [sb|sb| |sb mb eb]; simpl;
    try discriminate; try (destruct sa; discriminate);
    try (destruct sb; discriminate);
    try (destruct sa, sb; (discriminate || reflexivity)).
  assert (Hm : Pos.compare_cont Eq mb ma = CompOpp (Pos.compare_cont Eq ma mb))
    by (symmetry; apply (Pos.compare_cont_antisym ma mb Eq)).
  rewrite (Z.compare_antisym ea eb), Hm.
  destruct sa, sb; try discriminate; try reflexivity;
    destruct (ea ?= eb)%Z; simpl; try discriminate; try reflexivity;
    destruct (Pos.compare_cont Eq ma mb); simpl; intros;
    (discriminate || reflexivity).
Qed.

(** A float below another is not at least it. *)
Lemma ltb_not_leb (x y : float) :
  PrimFloat.ltb x y = true -> PrimFloat.leb y x = false.
Proof.
  rewrite FloatAxioms.ltb_spec, FloatAxioms.leb_spec.
  unfold SpecFloat.SFltb, SpecFloat.SFleb.
  destruct (SpecFloat.SFcompare (FloatOps.Prim2SF x) (FloatOps.Prim2SF y))
    as [[ | | ]|] eqn:E;
    try discriminate.
  intros _. now rewrite (SFcompare_Lt_swap _ _ E).
Qed.

End FloatOrder.

Section QueryMore.
Import Queries.

Lemma is_lya_qso_updated (cs : bool) (r : Truth.row) :
  is_lya_qso cs r = true -> is_lya_qso cs (set_templatetype "QSO_L" r) = true.
Proof.
  unfold is_lya_qso. simpl. intros Hsel.
  apply andb_true_iff in Hsel as [Hz _]. now rewrite Hz, like_QSO_L.
Qed.

(** The keys of the join are the keys of catalogue rows, each once. *)
Lemma join_keys_NoDup (truth : table Truth.row) (zcat : table ZCat.row) :
  NoDup (map (fun r => r.1.1) (join_truth_zcat truth zcat)) /\
  length (join_truth_zcat truth zcat) <= size zcat.
Proof.
  unfold join_truth_zcat. rewrite <- (length_map_to_list zcat).
  pose proof (NoDup_fst_map_to_list zcat) as Hnd.
  set (f := fun kz : Z * ZCat.row =>
              match truth !! kz.1 with
              | Some t => Some (kz.1, t, kz.2)
              | None => None
              end).
  assert (Hf : forall kz r, f kz = Some r -> r.1.1 = kz.1).
  { intros [k zc] r. unfold f. simpl. destruct (truth !! k); [|discriminate].
    now intros [= <-]. }
  clearbody f.
  induction (map_to_list zcat) as [|kz l IH]; [split; [constructor | reflexivity]|].
  rewrite fmap_cons in Hnd. apply NoDup_cons in Hnd as [Hk Hnd].
  destruct (IH Hnd) as [IH1 IH2].
  change (omap f (kz :: l))
    with (match f kz with Some y => y :: omap f l | None => omap f l end).
  destruct (f kz) as [r|] eqn:Er; cbn [map length]; [|split; [exact IH1 | lia]].
  split; [|lia]. constructor; [|exact IH1].
  intros Hin. apply Hk. rewrite (Hf _ _ Er) in Hin.
  apply list_elem_of_fmap in Hin as (r' & Hr' & Hin).
  apply list_elem_of_omap in Hin as (kz' & Hin' & Hsome).
  apply list_elem_of_fmap. exists kz'. split; [|exact Hin'].
  rewrite Hr'. now apply Hf.
Qed.

End QueryMore.

(** X4. Running the three update cells a second time changes nothing: the
    rows the filter selects already hold ['QSO_L']. *)
Theorem update_step_idempotent (case_sensitive_like : bool)
    (truth : gmap Z Queries.Truth.row) :
  Queries.update_step case_sensitive_like
    (Queries.update_step case_sensitive_like truth)
  = Queries.update_step case_sensitive_like truth.
Proof.
  apply map_eq. intros k. rewrite !update_step_lookup.
  destruct (truth !! k) as [r|]; [|reflexivity].
  destruct (Queries.is_lya_qso case_sensitive_like r) eqn:Hsel.
  - now rewrite (is_lya_qso_updated _ _ Hsel).
  - now rewrite Hsel.
Qed.

(** X5. A truth row whose redshift is below 2.1, whatever its template
    type, and a row whose template type does not match ['QSO%'], whatever its
    redshift, are left as they are by the update: the rows meant to become
    ['QSO_T'] are untouched. *)
Theorem update_step_keeps_low_redshift (case_sensitive_like : bool)
    (truth : gmap Z Queries.Truth.row) (k : Z) (r : Queries.Truth.row) :
  truth !! k = Some r ->
  PrimFloat.ltb (Queries.Truth.truez r) 2.1 = true \/
  Queries.like_QSO case_sensitive_like (Queries.Truth.templatetype r) = false ->
  Queries.update_step case_sensitive_like truth !! k = Some r.
Proof.
  intros Hk Hout. rewrite update_step_lookup, Hk.
  assert (Hsel : Queries.is_lya_qso case_sensitive_like r = false).
  { unfold Queries.is_lya_qso. destruct Hout as [Hlt | Hlike].
    - now rewrite (ltb_not_leb _ _ Hlt).
    - rewrite Hlike. apply andb_false_r. }
  now rewrite Hsel.
Qed.

Lemma update_step_keeps_low_redshift_witness :
  Queries.update_step true demo_truth !! 2%Z
  = Some demo_qso_low.
Proof.
  apply (update_step_keeps_low_redshift true demo_truth 2 demo_qso_low).
  - vm_compute. reflexivity.
  - left. vm_compute. reflexivity.
Defined.

(** X6. The join on [targetid] returns every [targetid] at most once, and
    no more rows than the redshift catalogue has. *)
Theorem join_truth_zcat_keys (truth : gmap Z Queries.Truth.row)
    (zcat : gmap Z Queries.ZCat.row) :
  NoDup (map (fun r => r.1.1) (Queries.join_truth_zcat truth zcat)) /\
  length (Queries.join_truth_zcat truth zcat) <= size zcat.
Proof. apply join_keys_NoDup. Qed.

Section DvPaths.
Import Queries.

Lemma dz_query_join (truth : table Truth.row) (target : table Target.row)
    (zcat : table ZCat.row) :
  (forall k, is_Some (truth !! k) -> is_Some (target !! k)) ->
  Forall2 Queries_same_pair (dz_query truth target zcat) (join_truth_zcat truth zcat).
Proof.
  intros Hcover. unfold dz_query, join_truth_zcat.
  induction (map_to_list zcat) as [|[k zc] l IH]; [constructor|].
  cbn [omap list_omap fst snd].
  destruct (truth !! k) as [t|] eqn:Et; [|exact IH].
  destruct (Hcover k) as [tg Eg]; [now rewrite Et|].
  rewrite Eg. constructor; [reflexivity | exact IH].
Qed.

Lemma dv_elementwise (c_kms : float) (q : list dz_row)
    (js : list (Z * Truth.row * ZCat.row)) (dv : list float) :
  Forall2 Queries_same_pair q js ->
  (dz ← rmap python_dz js; Ok (map (fun d => c_kms * d)%float dz)) = Ok dv <->
  rmap (fun r => sql_dv_elem c_kms (r_dz r)) q = Ok dv.
Proof.
  intros Hrel. revert dv.
  induction Hrel as [|r j q js Hrj _ IH]; intros dv; [reflexivity|].
  cbn [rmap]. unfold Queries_same_pair in Hrj. rewrite Hrj, eval_dz_label, python_dz_formula.
  destruct (PrimFloat.eqb _ 0); cbn [mbind result_bind sql_dv_elem];
    [split; discriminate|].
  destruct (rmap python_dz js) as [dz|e]; cbn [mbind result_bind map].
  - specialize (IH (map (fun d => c_kms * d)%float dz)).
    destruct IH as [IH _]. rewrite (IH eq_refl). reflexivity.
  - destruct (rmap _ q) as [dv'|e'] eqn:Eq; cbn [mbind result_bind];
      [|split; discriminate].
    destruct (IH dv') as [_ IH']. discriminate (IH' eq_refl).
Qed.

End DvPaths.

(** X7. When every target of the truth table is in the target table and
    the join is not empty, the velocity residuals computed in Python from the
    joined rows and those computed from the column [dz] of the database are
    the same array; one cell raises exactly when the other does. *)
Theorem dv_paths_agree (c_kms : float) (truth : gmap Z Queries.Truth.row)
    (target : gmap Z Queries.Target.row) (zcat : gmap Z Queries.ZCat.row)
    (dv : list float) :
  (forall k, is_Some (truth !! k) -> is_Some (target !! k)) ->
  Queries.join_truth_zcat truth zcat <> [] ->
  Queries.python_dv c_kms truth zcat = Ok dv <->
  Queries.sql_dv c_kms truth target zcat = Ok dv.
Proof.
  intros Hcover Hne.
  pose proof (dz_query_join truth target zcat Hcover) as Hrel.
  unfold Queries.python_dv, Queries.sql_dv.
  rewrite (dv_elementwise c_kms _ _ dv Hrel).
  destruct (Queries.dz_query truth target zcat) as [|r q] eqn:Eq.
  - inversion Hrel as [Hj|]. congruence.
  - reflexivity.
Qed.

Lemma dv_paths_agree_witness :
  exists dv,
    Queries.python_dv 299792.458 demo_truth demo_zcat = Ok dv /\
    Queries.sql_dv 299792.458 demo_truth demo_target demo_zcat = Ok dv /\
    length dv = 2.
Proof.
  destruct (Queries.python_dv 299792.458 demo_truth demo_zcat) as [dv|e] eqn:Hpy;
    [|vm_compute in Hpy; discriminate Hpy].
  exists dv. split; [reflexivity|]. split.
  - apply (dv_paths_agree 299792.458 demo_truth demo_target demo_zcat dv).
    + intros k [t Ht]. unfold demo_target. rewrite lookup_fmap, Ht. now eexists.
    + vm_compute. discriminate.
    + exact Hpy.
  - vm_compute in Hpy. injection Hpy as <-. reflexivity.
Defined.

(** ** The table of the redshift statistics *)

Section StripFacts.

Lemma rstrip_all_space (pad : string) : all_space pad = true -> rstrip pad = "".
Proof.
  induction pad as [|c pad IH]; [reflexivity|]. simpl.
  intros Hp. apply andb_true_iff in Hp as [Hc Hp]. now rewrite (IH Hp), Hc.
Qed.

Lemma rstrip_padding (s pad : string) :
  all_space pad = true -> rstrip (s +:+ pad) = rstrip s.
Proof.
  intros Hp. induction s as [|c s IH]; [now apply rstrip_all_space|].
  change (rstrip (String c (s +:+ pad)) = rstrip (String c s)).
  simpl. now rewrite IH.
Qed.

Lemma rstrip_idempotent (s : string) : rstrip (rstrip s) = rstrip s.
Proof.
  induction s as [|c s IH]; [reflexivity|]. simpl.
  destruct (rstrip s) as [|c' r] eqn:E.
  - destruct (is_space c) eqn:Ec; [reflexivity|]. simpl. now rewrite Ec.
  - change (rstrip (String c (String c' r)) = String c (String c' r)).
    cbn [rstrip] in IH |- *. now rewrite IH.
Qed.

End StripFacts.

(** X8. The two truth columns that [truth_query_to_table] strips are
    always built; their entries are strings without trailing whitespace, and
    two rows whose database strings differ only in their padding get the same
    entry, so that [set(truth['TEMPLATETYPE'])] has one element per type. *)
Theorem stripped_column_ignores_padding (q : list SpecQA.qrow) (c : string) :
  c = "truespectype" \/ c = "templatetype" ->
  exists col,
    SpecQA.truth_column q (replicate (length q) false) c = Ok col /\
    SpecQA.data col = map (fun r => CStr (rstrip (stripped_attr c r))) q /\
    (forall i s, SpecQA.data col !! i = Some (CStr s) -> rstrip s = s) /\
    (forall i j ri rj base pad_i pad_j,
        q !! i = Some ri -> q !! j = Some rj ->
        stripped_attr c ri = base +:+ pad_i -> all_space pad_i = true ->
        stripped_attr c rj = base +:+ pad_j -> all_space pad_j = true ->
        SpecQA.data col !! i = SpecQA.data col !! j).
Proof.
  intros Hc.
  assert (Hcol : SpecQA.truth_column q (replicate (length q) false) c
                 = Ok {| SpecQA.name := upper c;
                         SpecQA.data := map (fun r => CStr (rstrip (stripped_attr c r))) q;
                         SpecQA.mask := SpecQA.unmasked (length q) |}).
  { unfold SpecQA.truth_column.
    destruct Hc as [-> | ->].
    - change (String.eqb "truespectype" "truespectype" || _) with true. cbv iota.
      rewrite (rmap_total _ (fun r => CStr (rstrip (stripped_attr "truespectype" r))))
        by reflexivity.
      cbn [mbind result_bind].
      now rewrite mk_MaskedColumn_unmasked by apply length_map.
    - change (String.eqb "templatetype" "truespectype"
              || String.eqb "templatetype" "templatetype") with true. cbv iota.
      rewrite (rmap_total _ (fun r => CStr (rstrip (stripped_attr "templatetype" r))))
        by reflexivity.
      cbn [mbind result_bind].
      now rewrite mk_MaskedColumn_unmasked by apply length_map. }
  eexists. split; [exact Hcol|]. cbn [SpecQA.data].
  split; [reflexivity|]. split.
  - intros i s Hi. rewrite list_lookup_fmap in Hi.
    destruct (q !! i) as [r|]; [|discriminate].
    injection Hi as <-. apply rstrip_idempotent.
  - intros i j ri rj base pad_i pad_j Hi Hj Ei Pi Ej Pj.
    rewrite !list_lookup_fmap, Hi, Hj. simpl.
    now rewrite Ei, Ej, !rstrip_padding.
Qed.

Lemma stripped_column_ignores_padding_witness :
  exists col,
    SpecQA.truth_column [Examples.demo_qrow; Examples.demo_qrow]
      (replicate 2 false) "templatetype" = Ok col /\
    SpecQA.data col = [CStr "ELG"; CStr "ELG"].
Proof.
  destruct (stripped_column_ignores_padding
              [Examples.demo_qrow; Examples.demo_qrow] "templatetype")
    as (col & Hcol & Hdata & _); [now right|].
  exists col. split; [exact Hcol|]. rewrite Hdata. reflexivity.
Defined.

Section ClashFacts.
Import Queries SpecQA.

(** With lower-case column names, the function comes down to adding the
    expected columns to an empty table. *)
Lemma truth_query_to_table_adds (columns : list string) (q : list qrow) :
  Forall (fun c => no_upper c = true) columns ->
  truth_query_to_table columns q
  = add_columns [] (map (expected_truth_column q) columns ++ expected_appended q)%list.
Proof.
  intros Hlow. unfold truth_query_to_table. cbv zeta.
  rewrite (rmap_total (truth_column q (replicate (length q) false))
             (expected_truth_column q) columns).
  2:{ intros c Hc. apply truth_column_built.
      rewrite Forall_forall in Hlow. apply Hlow. now apply list_elem_of_In. }
  cbn [mbind result_bind rmap].
  unfold target_column, zcat_column.
  change (String.eqb "z" "spectype") with false.
  change (String.eqb "zerr" "spectype") with false.
  change (String.eqb "zwarn" "spectype") with false.
  change (String.eqb "spectype" "spectype") with true.
  cbv iota.
  rewrite (rmap_total (fun r => getattr_Target r "desi_target")
             (fun r => CInt (Target.desi_target (row_Target r)))) by reflexivity.
  rewrite (rmap_total (fun r => getattr_Target r "bgs_target")
             (fun r => CInt (Target.bgs_target (row_Target r)))) by reflexivity.
  rewrite (rmap_total (fun r => getattr_Target r "mws_target")
             (fun r => CInt (Target.mws_target (row_Target r)))) by reflexivity.
  rewrite (rmap_total (fun r => getattr_ZCat r "z")
             (fun r => CFloat (ZCat.z (row_ZCat r)))) by reflexivity.
  rewrite (rmap_total (fun r => getattr_ZCat r "zerr")
             (fun r => CFloat (ZCat.zerr (row_ZCat r)))) by reflexivity.
  rewrite (rmap_total (fun r => getattr_ZCat r "zwarn")
             (fun r => CInt (ZCat.zwarn (row_ZCat r)))) by reflexivity.
  rewrite (rmap_total (fun r => v ← getattr_ZCat r "spectype"; np_char_rstrip v)
             (fun r => CStr (rstrip (ZCat.spectype (row_ZCat r))))) by reflexivity.
  cbn [mbind result_bind].
  rewrite !mk_MaskedColumn_unmasked by apply length_map.
  cbn [mbind result_bind]. reflexivity.
Qed.

End ClashFacts.

(** X9. When a column of the truth table, once in upper case, has the name
    of another one or of one of the eight appended columns ([Z], [SPECTYPE],
    [DZ], ...), [truth_query_to_table] raises [ValueError] for every query
    result: the table cannot hold two columns of one name. *)
Theorem truth_query_to_table_name_clash (columns : list string)
    (q : list SpecQA.qrow) :
  Forall (fun c => no_upper c = true) columns ->
  ~ NoDup (map upper columns ++ SpecQA.appended_names) ->
  SpecQA.truth_query_to_table columns q = Raise ValueError.
Proof.
  intros Hlow Hdup. rewrite (truth_query_to_table_adds columns q Hlow).
  unfold SpecQA.add_columns. cbn [app].
  rewrite map_app, map_map.
  change (map SpecQA.name (SpecQA.expected_appended q)) with SpecQA.appended_names.
  change (map (fun x => SpecQA.name (SpecQA.expected_truth_column q x)) columns)
    with (map upper columns).
  now rewrite (bool_decide_eq_false_2 _ Hdup).
Qed.

Lemma truth_query_to_table_name_clash_witness :
  SpecQA.truth_query_to_table ["targetid"; "z"] [Examples.demo_qrow]
  = Raise ValueError.
Proof.
  apply truth_query_to_table_name_clash.
  - repeat constructor.
  - intros Hnd. apply (bool_decide_eq_true_2 _) in Hnd.
    vm_compute in Hnd. discriminate Hnd.
Defined.
